(** * ShelterMatching: the matching engine of [shelter_matching_backend.py]
      and the bed-availability reduction of [smartsheet_client.py]

    The Python sources are embedded shallowly: records ([Dict[str, Any]])
    are finite maps from field names to dynamically typed values, a
    [DataFrame] is the list of its records together with its column
    names, and every function that can raise returns a [result]. *)

From Stdlib Require Import ZArith QArith String Ascii List Bool Lia.
From stdpp Require Import gmap strings list fin_maps pretty sorting.

Close Scope Q_scope.
Open Scope string_scope.
Open Scope list_scope.
Open Scope Z_scope.

(* ===================================================================== *)
(** ** Exceptions and the error monad *)
(* ===================================================================== *)

(** The exception classes the modelled code can raise. *)
Inductive exn : Type :=
  | TypeError
  | ValueError
  | AttributeError
  | OverflowError
  | KeyError
  | UnboundLocalError.

(** A Python call either returns a value or raises. *)
Inductive result (A : Type) : Type :=
  | Ok (a : A)
  | Raise (e : exn).
Arguments Ok {A} a.
Arguments Raise {A} e.

#[global] Instance result_ret : MRet result := fun A a => Ok a.
#[global] Instance result_bind : MBind result := fun A B f m =>
  match m with
  | Ok a => f a
  | Raise e => Raise e
  end.

(** [returns r] holds when the call completed without raising. *)
Definition returns {A} (r : result A) : Prop :=
  match r with Ok _ => True | Raise _ => False end.

(** [for x in xs: ...] over a fallible body: the first raise aborts. *)
Fixpoint mapM {A B} (f : A → result B) (xs : list A) : result (list B) :=
  match xs with
  | [] => Ok []
  | x :: xs' => y ← f x; ys ← mapM f xs'; Ok (y :: ys)
  end.

(* ===================================================================== *)
(** ** Dynamically typed values *)
(* ===================================================================== *)

(** [datetime.date]: proleptic Gregorian year, month and day. *)
Record date : Type := Date { year : Z; month : Z; day : Z }.

(** A Python [float]: NaN, an infinity, or a finite value.  Every finite
    binary64 number is a rational; the model admits every rational. *)
Inductive pyfloat : Type :=
  | FNaN
  | FInf (neg : bool)
  | FFin (q : Q).

(** The values a cell of a source record can hold (strings, numbers,
    booleans, nulls), plus the [date] objects the bed lookup carries. *)
Inductive pyval : Type :=
  | VNone
  | VBool (b : bool)
  | VInt (z : Z)
  | VFloat (f : pyfloat)
  | VStr (s : string)
  | VDate (d : date).

(** [d.get(k)]: the value under [k], [None] when the key is absent. *)
Definition get (d : gmap string pyval) (k : string) : pyval :=
  default VNone (d !! k).

(** Dates compare chronologically. *)
Definition date_compare (a b : date) : comparison :=
  match year a ?= year b with
  | Eq => match month a ?= month b with
          | Eq => day a ?= day b
          | c => c
          end
  | c => c
  end.

Definition date_ltb (a b : date) : bool :=
  match date_compare a b with Lt => true | _ => false end.

Definition date_leb (a b : date) : bool :=
  match date_compare a b with Gt => false | _ => true end.

(** [pd.isna] on a float. *)
Definition isna (f : pyfloat) : bool :=
  match f with FNaN => true | _ => false end.

(** Python truthiness, as used by [not x], [x or y] and [if x]. *)
Definition truthy (v : pyval) : bool :=
  match v with
  | VNone => false
  | VBool b => b
  | VInt z => negb (z =? 0)
  | VFloat (FFin q) => negb (Qeq_bool q 0)
  | VFloat _ => true
  | VStr s => negb (String.eqb s "")
  | VDate _ => true
  end.

(** [int(f)] on a float truncates toward zero; NaN raises [ValueError]
    and an infinity raises [OverflowError]. *)
Definition int_of_float (f : pyfloat) : result Z :=
  match f with
  | FNaN => Raise ValueError
  | FInf _ => Raise OverflowError
  | FFin q => Ok (Z.quot (Qnum q) (Z.pos (Qden q)))
  end.

(* ===================================================================== *)
(** ** String primitives ([str.strip], [str.lower], [str.split], [in]) *)
(* ===================================================================== *)

(** [str.isspace] on the ASCII range: TAB..CR, FS..US and SPACE. *)
Definition is_space (c : ascii) : bool :=
  let n := nat_of_ascii c in
  ((9 <=? n) && (n <=? 13) || (28 <=? n) && (n <=? 32))%nat.

(** [str.lower] on one ASCII character. *)
Definition lower_ascii (c : ascii) : ascii :=
  let n := nat_of_ascii c in
  if ((65 <=? n) && (n <=? 90))%nat then ascii_of_nat (n + 32) else c.

Fixpoint lower (s : string) : string :=
  match s with
  | EmptyString => EmptyString
  | String c r => String (lower_ascii c) (lower r)
  end.

Fixpoint lstrip (s : string) : string :=
  match s with
  | EmptyString => EmptyString
  | String c r => if is_space c then lstrip r else s
  end.

Fixpoint rstrip (s : string) : string :=
  match s with
  | EmptyString => EmptyString
  | String c r =>
      match rstrip r with
      | EmptyString => if is_space c then EmptyString else String c EmptyString
      | r' => String c r'
      end
  end.

(** [s.strip()] *)
Definition strip (s : string) : string := rstrip (lstrip s).

(** [s.split(sep)] for a one-character separator: never empty, the
    pieces between consecutive separators are kept (also empty ones). *)
Fixpoint split (sep : ascii) (s : string) : list string :=
  match s with
  | EmptyString => [EmptyString]
  | String c r =>
      if Ascii.eqb c sep then EmptyString :: split sep r
      else match split sep r with
           | p :: ps => String c p :: ps
           | [] => [String c EmptyString]
           end
  end.

(** [needle in hay] on strings: substring search. *)
Fixpoint contains (needle hay : string) : bool :=
  String.prefix needle hay ||
  match hay with
  | EmptyString => false
  | String _ r => contains needle r
  end.

(** [s.replace(a, b)] for one-character [a] and [b]. *)
Fixpoint replace (a b : ascii) (s : string) : string :=
  match s with
  | EmptyString => EmptyString
  | String c r => String (if Ascii.eqb c a then b else c) (replace a b r)
  end.

(** Every character of [s] satisfies [P]. *)
Fixpoint str_forall (P : ascii → bool) (s : string) : bool :=
  match s with
  | EmptyString => true
  | String c r => P c && str_forall P r
  end.

(** [str.isascii]: every character is below 128.  A Python [str] is a
    sequence of code points; on ASCII text [is_space], [lower_ascii] and
    the digits of the pattern [\d] are exactly [str.isspace],
    [str.lower] and [\d], which on other code points (the no-break
    space, the long s, the digits of other scripts) do more. *)
Definition isascii (s : string) : bool :=
  str_forall (λ c, (nat_of_ascii c <? 128)%nat) s.

(** [c] does not occur in [s]. *)
Definition no_char (c : ascii) (s : string) : bool :=
  str_forall (λ a, negb (Ascii.eqb a c)) s.

(** [x in xs] for a string [x] and a list or set of strings. *)
Definition mem (x : string) (xs : list string) : bool :=
  bool_decide (x ∈ xs).

Definition nonempty (s : string) : bool := negb (String.eqb s "").

(** Left padding with zeros, for [date.isoformat]. *)
Fixpoint pad_zeros (fuel width : nat) (s : string) : string :=
  match fuel with
  | O => s
  | S fuel' =>
      if (String.length s <? width)%nat
      then pad_zeros fuel' width ("0" +:+ s) else s
  end.

Definition zfill (width : nat) (s : string) : string :=
  pad_zeros width width s.

Definition isoformat (d : date) : string :=
  zfill 4 (pretty (year d)) +:+ "-" +:+ zfill 2 (pretty (month d))
    +:+ "-" +:+ zfill 2 (pretty (day d)).

(* ===================================================================== *)
(** ** Library functions the sources call but do not define *)
(* ===================================================================== *)

(** The text-to-number conversions of the Python runtime are not part of
    the repository.  They are taken as parameters: [None] stands for the
    [ValueError] the builtin raises on a string it does not accept. *)
Class Builtins : Type := {
  (** [int(s)] on a string *)
  int_of_str : string → option Z;
  (** [float(s)] on a string *)
  float_of_str : string → option pyfloat;
  (** [repr] of a finite float *)
  float_repr : Q → string;
  (** [date.fromisoformat(s)] on a string *)
  date_fromisoformat : string → option date
}.

(* ===================================================================== *)
(** ** Helper conversions ([shelter_matching_backend.py], lines 29-92) *)
(* ===================================================================== *)

Section Matcher.
Context `{Builtins}.

(** [str(val)] *)
Definition py_str (val : pyval) : string :=
  match val with
  | VNone => "None"
  | VBool true => "True"
  | VBool false => "False"
  | VInt z => pretty z
  | VFloat FNaN => "nan"
  | VFloat (FInf false) => "inf"
  | VFloat (FInf true) => "-inf"
  | VFloat (FFin q) => float_repr q
  | VStr s => s
  | VDate d => isoformat d
  end.

(** [_to_bool]: booleans pass through, [None] is false, anything else is
    compared as trimmed lower-case text with the accepted spellings. *)
Definition _to_bool (val : pyval) : bool :=
  match val with
  | VBool b => b
  | VNone => false
  | _ => mem (lower (strip (py_str val))) ["true"; "yes"; "y"; "1"]
  end.

(** [_to_int_or_none].  A [bool] is an [int] in Python and is returned
    as it is; the model returns its integer value.  Only [ValueError] is
    caught around the two casts of a string. *)
Definition _to_int_or_none (val : pyval) : result (option Z) :=
  match val with
  | VNone => Ok None
  | VFloat f =>
      if isna f then Ok None
      else z ← int_of_float f; Ok (Some z)
  | VInt z => Ok (Some z)
  | VBool b => Ok (Some (Z.b2z b))
  | VStr _ | VDate _ =>
      let s := strip (py_str val) in
      if String.eqb s "" then Ok None
      else match int_of_str s with
           | Some z => Ok (Some z)
           | None =>
               match float_of_str s with
               | None => Ok None
               | Some f =>
                   match int_of_float f with
                   | Ok z => Ok (Some z)
                   | Raise ValueError => Ok None
                   | Raise e => Raise e
                   end
               end
           end
  end.

(** [_split_tags] *)
Definition _split_tags (val : pyval) : list string :=
  match val with
  | VNone => []
  | VFloat FNaN => []
  | _ =>
      let s := lower (strip (py_str val)) in
      if String.eqb s "" then []
      else if mem s ["nan"; "none"] then []
      else filter (λ p, nonempty p = true) (map strip (split "," s))
  end.

(* ===================================================================== *)
(** ** Core match logic: [is_exact_match] (lines 225-368) *)
(* ===================================================================== *)

(** [beds_by_shelter.get(uid, {})]: the keys of the lookup are strings,
    so a uid of another type finds nothing. *)
Definition bed_info_of (beds_by_shelter : gmap string (gmap string pyval))
    (uid : pyval) : gmap string pyval :=
  match uid with
  | VStr k => default ∅ (beds_by_shelter !! k)
  | _ => ∅
  end.

(** [bed_info.get("beds_available", 0)], with [None] replaced by [0]. *)
Definition beds_available_of (bed_info : gmap string pyval) : pyval :=
  match default (VInt 0) (bed_info !! "beds_available") with
  | VNone => VInt 0
  | v => v
  end.

(** [v <= 0]: numbers compare (NaN compares false); other types raise. *)
Definition le_zero (v : pyval) : result bool :=
  match v with
  | VBool b => Ok (Z.b2z b <=? 0)
  | VInt z => Ok (z <=? 0)
  | VFloat FNaN => Ok false
  | VFloat (FInf neg) => Ok neg
  | VFloat (FFin q) => Ok (Qle_bool q 0)
  | VNone | VStr _ | VDate _ => Raise TypeError
  end.

(** [v in tags] for a list of strings: only an equal string is found. *)
Definition val_in (v : pyval) (tags : list string) : bool :=
  match v with
  | VStr s => mem s tags
  | _ => false
  end.

Definition is_none (v : pyval) : bool :=
  match v with VNone => true | _ => false end.

Definition is_nil {A} (l : list A) : bool :=
  match l with [] => true | _ => false end.

(** [(v or "").strip().lower()]: a truthy value that is not a string has
    no [strip] method. *)
Definition text_field (v : pyval) : result string :=
  if truthy v then
    match v with
    | VStr s => Ok (lower (strip s))
    | _ => Raise AttributeError
    end
  else Ok "".

(** [tags == [t]] on lists of strings. *)
Definition is_exactly (tags : list string) (t : string) : bool :=
  bool_decide (tags = [t]).

(** The inner helper [_serves_families]. *)
Definition _serves_families (tags : list string) : bool :=
  existsb (λ t, mem t ["families"; "single_moms"; "single_parents"]) tags.

(** 1. Beds available (lines 243-253): [true] when the shelter has an id
    and a positive bed count. *)
Definition beds_rule (shelter_row : gmap string pyval)
    (beds_by_shelter : gmap string (gmap string pyval)) : result bool :=
  let uid := get shelter_row "shelter_uid" in
  if negb (truthy uid) then Ok false
  else
    let bed_info := bed_info_of beds_by_shelter uid in
    let beds_available := beds_available_of bed_info in
    no_beds ← le_zero beds_available;
    Ok (negb no_beds).

(** 2. SPA exclusion (lines 257-264) *)
Definition spa_rule (ref_row shelter_row : gmap string pyval) : bool :=
  let ref_exclude_spa := _split_tags (get ref_row "ref_exclude_spa") in
  let shelter_spa := get shelter_row "shelter_spa" in
  if negb (is_nil ref_exclude_spa)
  then negb (is_none shelter_spa || val_in shelter_spa ref_exclude_spa)
  else true.

(** 3. Pets compatibility (lines 267-276) *)
Definition pets_rule (ref_row shelter_row : gmap string pyval) : bool :=
  let has_animal := _to_bool (get ref_row "ref_has_any_animal") in
  let shelter_pets_tags := _split_tags (get shelter_row "shelter_pets") in
  if has_animal
  then negb (is_nil shelter_pets_tags)
       && negb (mem "no_pets_allowed" shelter_pets_tags)
  else true.

(** 4. Vehicle against safe parking (lines 279-298) *)
Definition vehicle_rule (ref_row shelter_row : gmap string pyval) : bool :=
  let has_vehicle := _to_bool (get ref_row "ref_vehicle") in
  let shelter_programs_tags :=
    _split_tags (get shelter_row "shelter_programs") in
  let shelter_entry_reqs_tags :=
    _split_tags (get shelter_row "shelter_entry_requirements") in
  if has_vehicle then
    let supports_vehicle :=
      existsb (λ p, contains "safe_park" p) shelter_programs_tags
      || existsb (λ p, contains "safe parking" p) shelter_programs_tags
      || mem "vehicle_registration" shelter_entry_reqs_tags in
    supports_vehicle
  else
    let is_safe_parking_shelter :=
      existsb (λ p, contains "safe_park" p || contains "safe parking" p)
        shelter_programs_tags in
    negb is_safe_parking_shelter.

(** The local [shelter_age] of lines 311-316: the tags under the key
    ["age_group"], an empty list standing for ["all"]. *)
Definition shelter_age_of (shelter_row : gmap string pyval) : list string :=
  let shelter_age := _split_tags (get shelter_row "age_group") in
  if is_nil shelter_age then ["all"] else shelter_age.

(** The local [shelter_gender] of lines 312-318. *)
Definition shelter_gender_of (shelter_row : gmap string pyval)
    : list string :=
  let shelter_gender := _split_tags (get shelter_row "shelter_gender") in
  if is_nil shelter_gender then ["all"] else shelter_gender.

(** The local [gender_source] of lines 301-307. *)
Definition gender_source_of (ref_row : gmap string pyval) : result string :=
  gender_bed_pref_raw ← text_field (get ref_row "ref_gender_bed_pref");
  gender_identity_raw ← text_field (get ref_row "ref_gender_identity");
  let gender_source := gender_bed_pref_raw in
  Ok (if negb (nonempty gender_source)
         || contains "no preference" gender_source
      then gender_identity_raw
      else gender_source).

(** 5. Gender against the shelter's demographics (lines 301-352) *)
Definition gender_rule (ref_row shelter_row : gmap string pyval)
    : result bool :=
  gender_source ← gender_source_of ref_row;
  let shelter_age := shelter_age_of shelter_row in
  let shelter_gender := shelter_gender_of shelter_row in
  let is_tay_focused := mem "tay_teen" shelter_age in
  let is_senior_focused := mem "seniors" shelter_age in
  if nonempty gender_source && negb (is_tay_focused || is_senior_focused)
  then
    let is_male_pref :=
      existsb (λ kw, contains kw gender_source) ["male"; "man"; "boy"] in
    let is_female_pref :=
      existsb (λ kw, contains kw gender_source) ["female"; "woman"; "girl"] in
    if is_male_pref
       && (negb (mem "single_men" shelter_gender)
           && negb (mem "all" shelter_gender)
           && negb (_serves_families shelter_gender))
    then Ok false
    else if is_female_pref
       && (negb (mem "single_women" shelter_gender)
           && negb (mem "single_moms" shelter_gender)
           && negb (mem "all" shelter_gender)
           && negb (_serves_families shelter_gender))
    then Ok false
    else Ok true
  else Ok true.

(** 6. Age against seniors-only and TAY-only shelters (lines 355-366) *)
Definition age_rule (ref_row shelter_row : gmap string pyval)
    : result bool :=
  age ← _to_int_or_none (get ref_row "ref_age");
  let shelter_age := shelter_age_of shelter_row in
  match age with
  | Some age =>
      let is_seniors_only := is_exactly shelter_age "seniors" in
      if is_seniors_only && (age <? 55) then Ok false
      else
        let is_tay_only := is_exactly shelter_age "tay_teen" in
        if is_tay_only && (age >? 24) then Ok false
        else Ok true
  | None => Ok true
  end.

(** [is_exact_match]: the six rules in order, [False] at the first one
    that fails. *)
Definition is_exact_match (ref_row shelter_row : gmap string pyval)
    (beds_by_shelter : gmap string (gmap string pyval)) : result bool :=
  beds_ok ← beds_rule shelter_row beds_by_shelter;
  if negb beds_ok then Ok false
  else if negb (spa_rule ref_row shelter_row) then Ok false
  else if negb (pets_rule ref_row shelter_row) then Ok false
  else if negb (vehicle_rule ref_row shelter_row) then Ok false
  else
    gender_ok ← gender_rule ref_row shelter_row;
    if negb gender_ok then Ok false
    else age_rule ref_row shelter_row.

(* ===================================================================== *)
(** ** Debug version of the matcher: [debug_exact_match] (lines 374-486) *)
(* ===================================================================== *)

(** The function assigns [shelter_age] and [shelter_gender] (lines 439
    and 441), which makes both names local to it, and reads
    [shelter_age] at line 438 before any assignment: control that
    reaches line 438 raises [UnboundLocalError].  Lines 439-486 are
    never executed and have no counterpart below. *)
Definition debug_exact_match (ref_row shelter_row : gmap string pyval)
    (beds_by_shelter : gmap string (gmap string pyval))
    : result (bool * string) :=
  let uid :=
    if truthy (get shelter_row "shelter_uid")
    then get shelter_row "shelter_uid" else VStr "UNKNOWN_UID" in
  (* 1. Beds *)
  let bed_info := bed_info_of beds_by_shelter uid in
  let beds_available := beds_available_of bed_info in
  no_beds ← le_zero beds_available;
  if (no_beds : bool) then Ok (false, "no beds available")
  else
  (* 2. SPA *)
  ref_exclude_spa ← _to_int_or_none (get ref_row "ref_exclude_spa");
  shelter_spa ← _to_int_or_none (get shelter_row "shelter_spa");
  let spa_verdict :=
    match ref_exclude_spa, shelter_spa with
    | Some _, None => Some "shelter SPA missing"
    | Some x, Some y =>
        if y =? x
        then Some ("SPA mismatch (ref exclude spa " +:+ pretty x
                   +:+ " vs shelter " +:+ pretty y +:+ ")")
        else None
    | None, _ => None
    end in
  match spa_verdict with
  | Some reason => Ok (false, reason)
  | None =>
  (* 3. Pets *)
  let has_animal := _to_bool (get ref_row "ref_has_any_animal") in
  let shelter_pets_tags := _split_tags (get shelter_row "shelter_pets") in
  if has_animal && is_nil shelter_pets_tags
  then Ok (false, "client has animal but shelter has no pets field")
  else if has_animal && mem "no_pets_allowed" shelter_pets_tags
  then Ok (false, "client has animal but shelter has no_pets_allowed")
  else
  (* 4. Vehicle / safe parking: the same test as in [is_exact_match] *)
  let has_vehicle := _to_bool (get ref_row "ref_vehicle") in
  if negb (vehicle_rule ref_row shelter_row)
  then Ok (false,
           if has_vehicle
           then "client has vehicle but shelter not vehicle-friendly"
           else "client no vehicle but shelter is safe-parking only")
  else
  (* 5. Gender / demographics *)
  gender_source ← gender_source_of ref_row;
  (* line 438: [if not shelter_age] *)
  Raise UnboundLocalError
  end.

(* ===================================================================== *)
(** ** Matching orchestration: [build_matches] (lines 490-593) *)
(* ===================================================================== *)

(** A [pd.DataFrame]: the column labels in order and the records that
    [to_dict(orient="records")] returns. *)
Record DataFrame : Type := {
  columns : list string;
  records : list (gmap string pyval)
}.

Definition MATCH_COLUMNS : list string :=
  [ "ref_row_id"; "ref_first_name"; "ref_last_name"; "ref_age";
    "ref_gender_identity"; "ref_gender_bed_pref"; "ref_spa"; "ref_vehicle";
    "ref_has_any_animal"; "ref_current_location"; "ref_presenting_issues";
    "shelter_uid"; "shelter_name"; "shelter_spa"; "shelter_cities";
    "shelter_pets"; "shelter_demographics"; "shelter_programs";
    "shelter_entry_requirements"; "shelter_email"; "shelter_phone";
    "beds_available"; "beds_last_updated" ].

(** The dict appended for one matching pair (lines 542-578). *)
Definition match_row (ref shelter : gmap string pyval)
    (beds_by_shelter : gmap string (gmap string pyval))
    : gmap string pyval :=
  let uid := get shelter "shelter_uid" in
  let bed_info := bed_info_of beds_by_shelter uid in
  let beds_available := default (VInt 0) (bed_info !! "beds_available") in
  let beds_last_updated := get bed_info "date" in
  list_to_map
    [ ("ref_row_id", get ref "ref_row_id");
      ("ref_first_name", get ref "ref_first_name");
      ("ref_last_name", get ref "ref_last_name");
      ("ref_age", get ref "ref_age");
      ("ref_gender_identity", get ref "ref_gender_identity");
      ("ref_gender_bed_pref", get ref "ref_gender_bed_pref");
      ("ref_spa", get ref "ref_spa");
      ("ref_vehicle", get ref "ref_vehicle");
      ("ref_has_any_animal", get ref "ref_has_any_animal");
      ("ref_current_location", get ref "ref_current_location");
      ("ref_presenting_issues", get ref "ref_presenting_issues");
      ("shelter_uid", get shelter "shelter_uid");
      ("shelter_name", get shelter "shelter_name");
      ("shelter_spa", get shelter "shelter_spa");
      ("shelter_cities", get shelter "shelter_cities");
      ("shelter_pets", get shelter "shelter_pets");
      ("shelter_demographics", get shelter "shelter_demographics");
      ("shelter_programs", get shelter "shelter_programs");
      ("shelter_entry_requirements",
        get shelter "shelter_entry_requirements");
      ("shelter_email", get shelter "shelter_email");
      ("shelter_phone", get shelter "shelter_phone");
      ("beds_available", beds_available);
      ("beds_last_updated", beds_last_updated) ].

(** The inner loop [for shelter in shelters] for one referral. *)
Fixpoint match_shelters (ref : gmap string pyval)
    (shelters : list (gmap string pyval))
    (beds_by_shelter : gmap string (gmap string pyval))
    : result (list (gmap string pyval)) :=
  match shelters with
  | [] => Ok []
  | shelter :: rest =>
      ok ← is_exact_match ref shelter beds_by_shelter;
      rows ← match_shelters ref rest beds_by_shelter;
      Ok (if (ok : bool) then match_row ref shelter beds_by_shelter :: rows else rows)
  end.

(** The outer loop [for ref in referrals]: the accumulated [match_rows]. *)
Fixpoint match_rows_of (referrals shelters : list (gmap string pyval))
    (beds_by_shelter : gmap string (gmap string pyval))
    : result (list (gmap string pyval)) :=
  match referrals with
  | [] => Ok []
  | ref :: rest =>
      rows ← match_shelters ref shelters beds_by_shelter;
      more ← match_rows_of rest shelters beds_by_shelter;
      Ok (rows ++ more)
  end.

(** *** [DataFrame.sort_values] on several columns

    pandas is not part of the repository.  Its documented behaviour is
    modelled: rows are ordered by the listed columns, the first one most
    significant, ascending, missing values ([None], NaN) last, and rows
    that agree on every listed column keep their order (the sort is
    stable).  Within a column numbers and dates precede strings.  A
    column that holds both numbers and dates, which Python cannot
    compare and on which pandas raises [TypeError], is outside the
    model: the sort columns are ids, SPA codes and names. *)
Inductive sort_key : Type :=
  | KNegInf
  | KNum (q : Q)
  | KPosInf
  | KStr (s : string)
  | KDate (d : date)
  | KNull.

Definition sort_key_of (v : pyval) : sort_key :=
  match v with
  | VNone => KNull
  | VBool b => KNum (inject_Z (Z.b2z b))
  | VInt z => KNum (inject_Z z)
  | VFloat FNaN => KNull
  | VFloat (FInf true) => KNegInf
  | VFloat (FInf false) => KPosInf
  | VFloat (FFin q) => KNum q
  | VStr s => KStr s
  | VDate d => KDate d
  end.

Definition key_rank (k : sort_key) : Z :=
  match k with
  | KNegInf => 0
  | KNum _ => 1
  | KPosInf => 2
  | KDate _ => 3
  | KStr _ => 4
  | KNull => 5
  end.

Definition key_leb (a b : sort_key) : bool :=
  match a, b with
  | KNum p, KNum q => Qle_bool p q
  | KStr s, KStr t => String.leb s t
  | KDate d, KDate e => date_leb d e
  | _, _ => key_rank a <=? key_rank b
  end.

(** Lexicographic comparison of two key tuples. *)
Fixpoint lex_leb (ks1 ks2 : list sort_key) : bool :=
  match ks1, ks2 with
  | a :: r1, b :: r2 =>
      if negb (key_leb b a) then true
      else if negb (key_leb a b) then false
      else lex_leb r1 r2
  | _, _ => true
  end.

(** The key tuple of a row for the columns [by]. *)
Definition row_keys (by_ : list string) (row : gmap string pyval)
    : list sort_key :=
  map (λ c, sort_key_of (get row c)) by_.

Definition row_leb (by_ : list string) (r1 r2 : gmap string pyval) : bool :=
  lex_leb (row_keys by_ r1) (row_keys by_ r2).

(** Two rows tie when neither precedes the other strictly. *)
Definition row_tie (by_ : list string) (r1 r2 : gmap string pyval) : bool :=
  row_leb by_ r1 r2 && row_leb by_ r2 r1.

(** Stable insertion: [x] goes before the first row it does not exceed. *)
Fixpoint insert_row (by_ : list string) (x : gmap string pyval)
    (l : list (gmap string pyval)) : list (gmap string pyval) :=
  match l with
  | [] => [x]
  | y :: l' =>
      if row_leb by_ x y then x :: y :: l'
      else y :: insert_row by_ x l'
  end.

Definition sort_rows (by_ : list string) (l : list (gmap string pyval))
    : list (gmap string pyval) :=
  foldr (insert_row by_) [] l.

Definition sort_values (by_ : list string) (df : DataFrame) : DataFrame :=
  {| columns := columns df; records := sort_rows by_ (records df) |}.

(** [build_matches] *)
Definition build_matches (referrals_df shelters_df : DataFrame)
    (beds_by_shelter : gmap string (gmap string pyval)) : result DataFrame :=
  let referrals := records referrals_df in
  let shelters := records shelters_df in
  match_rows ← match_rows_of referrals shelters beds_by_shelter;
  if is_nil match_rows
  then Ok {| columns := MATCH_COLUMNS; records := [] |}
  else
    let matches_df := {| columns := MATCH_COLUMNS; records := match_rows |} in
    Ok (sort_values ["ref_row_id"; "shelter_spa"; "shelter_name"] matches_df).


(* ===================================================================== *)
(** ** Normalization of the shelter database (lines 181-219) *)
(* ===================================================================== *)

Definition int_or_none_val (o : option Z) : pyval :=
  match o with Some z => VInt z | None => VNone end.

(** One record of [normalize_shelters_df]: [raw_df.get(c)] is the cell of
    column [c], [None] when the column is absent.  The two assignments
    that are commented out in the source (lines 201-202) are absent. *)
Definition normalize_shelter_row (raw : gmap string pyval)
    : result (gmap string pyval) :=
  shelter_spa ← _to_int_or_none (get raw "spa");
  Ok (list_to_map
    [ ("shelter_uid", get raw "shelter_id");
      ("shelter_name", get raw "shelter_name");
      ("shelter_spa", int_or_none_val shelter_spa);
      ("shelter_cities", get raw "cities");
      ("shelter_age", get raw "age_group");
      ("shelter_gender", get raw "gender");
      ("shelter_entry_requirements", get raw "entry_requirements");
      ("shelter_special_situation_restrictions",
        get raw "special_situation_restrictions");
      ("shelter_accessibility", get raw "accessibility");
      ("shelter_health_services", get raw "health_services");
      ("shelter_room_style", get raw "room_style");
      ("shelter_storage", get raw "storage");
      ("shelter_pets", get raw "pets");
      ("shelter_meals", get raw "meals");
      ("shelter_parking", get raw "parking");
      ("shelter_vehicles", get raw "vehicles");
      ("shelter_criminal_history", get raw "criminal_history");
      ("shelter_email", get raw "email");
      ("shelter_phone", get raw "phone") ]).

Definition SHELTER_COLUMNS : list string :=
  [ "shelter_uid"; "shelter_name"; "shelter_spa"; "shelter_cities";
    "shelter_age"; "shelter_gender"; "shelter_entry_requirements";
    "shelter_special_situation_restrictions"; "shelter_accessibility";
    "shelter_health_services"; "shelter_room_style"; "shelter_storage";
    "shelter_pets"; "shelter_meals"; "shelter_parking"; "shelter_vehicles";
    "shelter_criminal_history"; "shelter_email"; "shelter_phone" ].

(** The frame of [normalize_shelters_df], record by record.  The record
    holds the value the code computes for each cell.  The column types
    of pandas are not modelled: in the real frame a SPA column with a
    blank holds floats ([4.0], NaN) where the record has [4] and
    [None], and a raw frame without any of the columns read here gives
    a frame without rows. *)
Definition normalize_shelters_df (raw_df : DataFrame) : result DataFrame :=
  rows ← mapM normalize_shelter_row (records raw_df);
  Ok {| columns := SHELTER_COLUMNS; records := rows |}.

(* ===================================================================== *)
(** ** Bed availability ([smartsheet_client.py], lines 85-160) *)
(* ===================================================================== *)

(** The dict literal [normalize_bed_row] returns: its four keys are
    fixed, so it is a record. *)
Record bed_row : Type := {
  bed_shelter_uid : option string;
  bed_beds_available : Z;
  bed_date_str : pyval;
  bed_date : option date
}.

(** [int(v)] *)
Definition py_int (v : pyval) : result Z :=
  match v with
  | VBool b => Ok (Z.b2z b)
  | VInt z => Ok z
  | VFloat f => int_of_float f
  | VStr s => match int_of_str s with
              | Some z => Ok z
              | None => Raise ValueError
              end
  | VNone | VDate _ => Raise TypeError
  end.

Definition normalize_bed_row (row : gmap string pyval) : result bed_row :=
  let raw_id := get row "ShelterID" in
  let shelter_uid :=
    match raw_id with
    | VNone => None
    | _ => Some (replace "_" "-" (py_str raw_id))
    end in
  let beds := get row "BedsAvailable" in
  beds_available ←
    match beds with
    | VNone => Ok 0
    | _ => match py_int beds with
           | Raise TypeError | Raise ValueError => Ok 0
           | r => r
           end
    end;
  let date_str := get row "Date" in
  parsed_date ←
    (if truthy date_str then
       match date_str with
       | VStr s => Ok (date_fromisoformat s)
       | _ => Raise TypeError
       end
     else Ok None);
  Ok {| bed_shelter_uid := shelter_uid;
        bed_beds_available := beds_available;
        bed_date_str := date_str;
        bed_date := parsed_date |}.

(** [get_bed_availability], on the rows [get_bed_availability_raw]
    fetched. *)
Definition get_bed_availability (raw_rows : list (gmap string pyval))
    : result (list bed_row) :=
  mapM normalize_bed_row raw_rows.

(** [d > v] for a date [d]: comparing with another type raises. *)
Definition date_gt (d : date) (v : pyval) : result bool :=
  match v with
  | VDate d0 => Ok (date_ltb d0 d)
  | _ => Raise TypeError
  end.

(** The entry stored for a row: [{"date": d, "beds_available": n}]. *)
Definition bed_entry (d : date) (n : Z) : gmap string pyval :=
  <["date" := VDate d]> (<["beds_available" := VInt n]> ∅).

(** One iteration of the loop of [get_latest_beds_by_shelter]. *)
Definition latest_step (latest : gmap string (gmap string pyval))
    (row : bed_row) : result (gmap string (gmap string pyval)) :=
  match bed_shelter_uid row, bed_date row with
  | Some uid, Some d =>
      replace_it ←
        match latest !! uid with
        | None => Ok true
        | Some entry =>
            match entry !! "date" with
            | Some v => date_gt d v
            | None => Raise KeyError
            end
        end;
      Ok (if (replace_it : bool)
          then <[uid := bed_entry d (bed_beds_available row)]> latest
          else latest)
  | _, _ => Ok latest
  end.

Fixpoint latest_loop (latest : gmap string (gmap string pyval))
    (rows : list bed_row) : result (gmap string (gmap string pyval)) :=
  match rows with
  | [] => Ok latest
  | row :: rest => latest' ← latest_step latest row; latest_loop latest' rest
  end.

Definition get_latest_beds_by_shelter (raw_rows : list (gmap string pyval))
    : result (gmap string (gmap string pyval)) :=
  rows ← get_bed_availability raw_rows;
  latest_loop ∅ rows.

End Matcher.

(* ===================================================================== *)
(** ** Referral normalization (lines 98-175) *)
(* ===================================================================== *)

Section Referrals.
Context `{Builtins}.

(** [\d] on the ASCII range. *)
Definition is_digit (c : ascii) : bool :=
  let n := nat_of_ascii c in ((48 <=? n) && (n <=? 57))%nat.

(** The longest prefix of [s] whose characters satisfy [P], and what
    follows it: a greedy [P*]. *)
Fixpoint take_while (P : ascii → bool) (s : string) : string :=
  match s with
  | EmptyString => EmptyString
  | String c r => if P c then String c (take_while P r) else EmptyString
  end.

Fixpoint drop_while (P : ascii → bool) (s : string) : string :=
  match s with
  | EmptyString => EmptyString
  | String c r => if P c then drop_while P r else s
  end.

(** The pattern [spa\s*(\d+)] with [re.IGNORECASE], tried at the start
    of [s]: group 1 when it matches.  Spaces and digits are disjoint, so
    the greedy [\s*] never has to give a character back.  The letters,
    spaces and digits are those of ASCII text ([isascii]); on other
    text the pattern also accepts the long s for [s] and the spaces and
    digits of Unicode. *)
Definition match_spa_here (s : string) : option string :=
  match s with
  | String a (String b (String c r)) =>
      if Ascii.eqb (lower_ascii a) "s" && Ascii.eqb (lower_ascii b) "p"
         && Ascii.eqb (lower_ascii c) "a"
      then
        let digits := take_while is_digit (drop_while is_space r) in
        if String.eqb digits "" then None else Some digits
      else None
  | _ => None
  end.

(** [re.search]: the match at the leftmost position that has one. *)
Fixpoint search_spa (s : string) : option string :=
  match match_spa_here s with
  | Some digits => Some digits
  | None =>
      match s with
      | EmptyString => None
      | String _ r => search_spa r
      end
  end.

(** [_extract_spa_from_location]: a [ValueError] of [int] gives [None]. *)
Definition _extract_spa_from_location (loc : pyval) : option Z :=
  match loc with
  | VNone => None
  | _ =>
      match search_spa (py_str loc) with
      | Some digits => int_of_str digits
      | None => None
      end
  end.

Definition animal_cols : list string :=
  [ "animals"; "service_animal";
    "emotional_supportemotional_support_animal"; "pet" ].

(** The inner helper [_has_any_animal] on one raw row: [col in
    row.index] is the presence of the key. *)
Definition _has_any_animal (row : gmap string pyval) : bool :=
  existsb
    (λ col, match row !! col with
            | Some v => _to_bool v
            | None => false
            end)
    animal_cols.

(** One record of [normalize_referrals_df]: [raw_df.get(c)] is the cell
    of column [c], [None] when the column is absent. *)
Definition normalize_referral_row (raw : gmap string pyval)
    : gmap string pyval :=
  list_to_map
    [ ("ref_row_id", get raw "uid");
      ("ref_first_name", get raw "first_name");
      ("ref_last_name", get raw "last_name");
      ("ref_age", get raw "age");
      ("ref_gender_identity", get raw "gender_identity");
      ("ref_gender_bed_pref", get raw "gender_bed_preference");
      ("ref_current_location", get raw "current_stay");
      ("ref_spa",
        int_or_none_val (_extract_spa_from_location (get raw "current_stay")));
      ("ref_preferred_spa", get raw "preferred_spa");
      ("ref_preferred_city", get raw "preferred_city_name");
      ("ref_exclude_spa", get raw "exclude_spa");
      ("ref_exclude_city_name", get raw "exclude_city_name");
      ("ref_skid_row", get raw "skid_row");
      ("ref_vehicle", get raw "vehicle");
      ("ref_vehicle_info", get raw "vehicle_info");
      ("ref_health", get raw "health_concerns");
      ("ref_accessibility", get raw "accessibility");
      ("ref_room_type", get raw "congregate_environment");
      ("ref_top_bunk", get raw "top_bunk");
      ("ref_has_any_animal", VBool (_has_any_animal raw));
      ("ref_presenting_issues", get raw "special_situations") ].

Definition REFERRAL_COLUMNS : list string :=
  [ "ref_row_id"; "ref_first_name"; "ref_last_name"; "ref_age";
    "ref_gender_identity"; "ref_gender_bed_pref"; "ref_current_location";
    "ref_spa"; "ref_preferred_spa"; "ref_preferred_city"; "ref_exclude_spa";
    "ref_exclude_city_name"; "ref_skid_row"; "ref_vehicle";
    "ref_vehicle_info"; "ref_health"; "ref_accessibility"; "ref_room_type";
    "ref_top_bunk"; "ref_has_any_animal"; "ref_presenting_issues" ].

(** The frame of [normalize_referrals_df], record by record, with the
    same abstraction of the column types as [normalize_shelters_df]. *)
Definition normalize_referrals_df (raw_df : DataFrame) : DataFrame :=
  {| columns := REFERRAL_COLUMNS;
     records := map normalize_referral_row (records raw_df) |}.

(* ===================================================================== *)
(** ** The matching run of [lambda_handler] and [main] *)
(* ===================================================================== *)

(** [pd.DataFrame(records)] on fetched records.  The column labels of a
    raw frame are never read by the code and are left empty. *)
Definition raw_frame (recs : list (gmap string pyval)) : DataFrame :=
  {| columns := []; records := recs |}.

(** Lines 46-57 of [app.py] (and 637-662 of the backend), on the records
    the three fetches returned: normalize the referrals, normalize the
    shelters, reduce the bed rows, build the matches. *)
Definition run_matching
    (referral_records shelter_records bed_rows : list (gmap string pyval))
    : result DataFrame :=
  let referrals_df := normalize_referrals_df (raw_frame referral_records) in
  shelters_df ← normalize_shelters_df (raw_frame shelter_records);
  beds_by_shelter ← get_latest_beds_by_shelter bed_rows;
  build_matches referrals_df shelters_df beds_by_shelter.

End Referrals.

(* ===================================================================== *)
(** ** Sheets as records ([smartsheet_client.py], lines 22-37) *)
(* ===================================================================== *)

(** What [sheet_to_records] reads of a Smartsheet sheet: the id and
    title of each column, and for each row its cells. *)
Record sheet_column : Type := { column_id : Z; column_title : string }.
Record sheet_cell : Type := { cell_column_id : Z; cell_value : pyval }.
Record sheet : Type := {
  sheet_columns : list sheet_column;
  sheet_rows : list (list sheet_cell)
}.

(** [{col.id: col.title for col in sheet.columns}]: a later column with
    the same id replaces an earlier one. *)
Definition column_map_of (cols : list sheet_column) : gmap Z string :=
  foldl (λ m col, <[column_id col := column_title col]> m) ∅ cols.

(** The inner loop over the cells of one row; [column_map[id]] raises
    [KeyError] on an id that is not a key. *)
Fixpoint cells_to_record (column_map : gmap Z string)
    (record : gmap string pyval) (cells : list sheet_cell)
    : result (gmap string pyval) :=
  match cells with
  | [] => Ok record
  | cell :: rest =>
      match column_map !! cell_column_id cell with
      | Some col_name =>
          cells_to_record column_map
            (<[col_name := cell_value cell]> record) rest
      | None => Raise KeyError
      end
  end.

Definition sheet_to_records (sh : sheet)
    : result (list (gmap string pyval)) :=
  let column_map := column_map_of (sheet_columns sh) in
  mapM (cells_to_record column_map ∅) (sheet_rows sh).

(* ===================================================================== *)
(** ** A reference instance of the library functions *)
(* ===================================================================== *)

(** The general theorems below hold for every instance of [Builtins].
    The instance here lets the examples run.  It covers plain decimal
    text: signed digit strings for [int], the spellings of the
    non-finite floats and digit strings with an optional fraction for
    [float] (read exactly, without rounding), and [YYYY-MM-DD] for
    dates.  Its [float_repr] prints an integral value as Python does
    ([4.0]) and any other value as a fraction. *)
Module Reference.

Definition digit_of (c : ascii) : option Z :=
  let n := nat_of_ascii c in
  if ((48 <=? n) && (n <=? 57))%nat then Some (Z.of_nat (n - 48)) else None.

Fixpoint digits_value (acc : Z) (s : string) : option Z :=
  match s with
  | EmptyString => Some acc
  | String c r =>
      match digit_of c with
      | Some d => digits_value (10 * acc + d) r
      | None => None
      end
  end.

Definition parse_nat (s : string) : option Z :=
  if String.eqb s "" then None else digits_value 0 s.

(** An optional sign in front of [body]. *)
Definition split_sign (s : string) : bool * string :=
  match s with
  | String "-" r => (true, r)
  | String "+" r => (false, r)
  | _ => (false, s)
  end.

Definition apply_sign (neg : bool) (z : Z) : Z := if neg then - z else z.

Definition parse_int (s : string) : option Z :=
  let '(neg, body) := split_sign (strip s) in
  apply_sign neg <$> parse_nat body.

Definition parse_decimal (neg : bool) (body : string) : option pyfloat :=
  match split "." body with
  | [i] => (λ z, FFin (inject_Z (apply_sign neg z))) <$> parse_nat i
  | [i; f] =>
      let scale := 10 ^ Z.of_nat (String.length f) in
      match parse_nat (i +:+ f) with
      | Some z => Some (FFin (Qmake (apply_sign neg z) (Z.to_pos scale)))
      | None => None
      end
  | _ => None
  end.

Definition parse_float (s : string) : option pyfloat :=
  let '(neg, body) := split_sign (lower (strip s)) in
  if mem body ["inf"; "infinity"] then Some (FInf neg)
  else if String.eqb body "nan" then Some FNaN
  else parse_decimal neg body.

Definition print_float (q : Q) : string :=
  if Pos.eqb (Qden q) 1 then pretty (Qnum q) +:+ ".0"
  else pretty (Qnum q) +:+ "/" +:+ pretty (Z.pos (Qden q)).

Definition is_leap (y : Z) : bool :=
  (y mod 4 =? 0) && (negb (y mod 100 =? 0) || (y mod 400 =? 0)).

Definition days_in_month (y m : Z) : Z :=
  if m =? 2 then (if is_leap y then 29 else 28)
  else if (m =? 4) || (m =? 6) || (m =? 9) || (m =? 11) then 30
  else 31.

Definition parse_date (s : string) : option date :=
  match split "-" s with
  | [ys; ms; ds] =>
      if ((String.length ys =? 4) && (String.length ms =? 2)
          && (String.length ds =? 2))%nat
      then
        match parse_nat ys, parse_nat ms, parse_nat ds with
        | Some y, Some m, Some d =>
            if (1 <=? y) && (1 <=? m) && (m <=? 12)
               && (1 <=? d) && (d <=? days_in_month y m)
            then Some (Date y m d) else None
        | _, _, _ => None
        end
      else None
  | _ => None
  end.

#[global] Instance reference_builtins : Builtins := {
  int_of_str := parse_int;
  float_of_str := parse_float;
  float_repr := print_float;
  date_fromisoformat := parse_date
}.

End Reference.
Export Reference.

(* ===================================================================== *)
(** ** Vocabulary of the statements *)
(* ===================================================================== *)

(** The call returned [True]. *)
Definition passes (r : result bool) : bool :=
  match r with Ok true => true | _ => false end.

(** The pairs of the cross product that match, in the order in which the
    two nested loops of [build_matches] meet them. *)
Definition matching_pairs `{Builtins}
    (referrals shelters : list (gmap string pyval))
    (beds_by_shelter : gmap string (gmap string pyval))
    : list (gmap string pyval * gmap string pyval) :=
  flat_map
    (λ ref, map (pair ref)
              (filter (λ shelter,
                 passes (is_exact_match ref shelter beds_by_shelter) = true)
                 shelters))
    referrals.

(** The normalized bed row [row] is kept for shelter [uid] with date
    [d]: it has that id and a parsed date. *)
Definition kept (row : bed_row) (uid : string) (d : date) : Prop :=
  bed_shelter_uid row = Some uid ∧ bed_date row = Some d.

(** [row] is, among the rows of [rows] kept for [uid], the first one
    that carries the maximum date [d]. *)
Definition first_latest (rows : list bed_row) (uid : string)
    (row : bed_row) (d : date) : Prop :=
  ∃ before after,
    rows = before ++ row :: after
    ∧ kept row uid d
    ∧ (∀ r' d', r' ∈ before → kept r' uid d' → date_ltb d' d = true)
    ∧ (∀ r' d', r' ∈ after → kept r' uid d' → date_leb d' d = true).

(** What the loop of [get_latest_beds_by_shelter] has established after
    the rows [done]. *)
Definition latest_inv (done : list bed_row)
    (latest : gmap string (gmap string pyval)) : Prop :=
  ∀ uid,
    match latest !! uid with
    | None => ∀ row d, row ∈ done → ¬ kept row uid d
    | Some entry =>
        ∃ row d, first_latest done uid row d
                 ∧ entry = bed_entry d (bed_beds_available row)
    end.

(** The sort columns of [build_matches]. *)
Definition SORT_COLUMNS : list string :=
  ["ref_row_id"; "shelter_spa"; "shelter_name"].


(** The keys [is_exact_match] reads of a referral and of a shelter. *)
Definition REFERRAL_KEYS_READ : list string :=
  [ "ref_exclude_spa"; "ref_has_any_animal"; "ref_vehicle";
    "ref_gender_bed_pref"; "ref_gender_identity"; "ref_age" ].

Definition SHELTER_KEYS_READ : list string :=
  [ "shelter_uid"; "shelter_spa"; "shelter_pets"; "shelter_programs";
    "shelter_entry_requirements"; "age_group"; "shelter_gender" ].

(** The five reasons [debug_exact_match] gives for the beds, pets and
    vehicle steps. *)
Definition SHARED_REASONS : list string :=
  [ "no beds available";
    "client has animal but shelter has no pets field";
    "client has animal but shelter has no_pets_allowed";
    "client has vehicle but shelter not vehicle-friendly";
    "client no vehicle but shelter is safe-parking only" ].

(** Two shelter records agree on every field but [shelter_age]. *)
Definition same_but_age (sh sh' : gmap string pyval) : Prop :=
  ∀ k, k ≠ "shelter_age" → get sh k = get sh' k.

(** A value is text or [None]. *)
Definition text_or_none (v : pyval) : Prop :=
  match v with VNone | VStr _ => True | _ => False end.


(* ===================================================================== *)
(** ** Concrete records used by the examples *)
(* ===================================================================== *)

Module Examples.

(** [{"S1": {"beds_available": 3}}] *)
Definition beds_S1 : gmap string (gmap string pyval) :=
  {[ "S1" := {[ "beds_available" := VInt 3 ]} ]}.

(** A referral with no field set. *)
Definition ref_blank : gmap string pyval := ∅.

(** [{"shelter_uid": "S1"}] *)
Definition shelter_S1 : gmap string pyval := {[ "shelter_uid" := VStr "S1" ]}.

(** [{"ref_exclude_spa": 4}]: the excluded-SPA tag set is [["4"]]. *)
Definition ref_exclude_4 : gmap string pyval :=
  {[ "ref_exclude_spa" := VInt 4 ]}.

(** [{"shelter_uid": "S1", "shelter_spa": n}] *)
Definition shelter_spa_n (n : Z) : gmap string pyval :=
  <["shelter_spa" := VInt n]> shelter_S1.

(** The raw shelter row [{"shelter_id": "S1", "spa": 4}]. *)
Definition raw_shelter_spa_4 : gmap string pyval :=
  {[ "shelter_id" := VStr "S1"; "spa" := VInt 4 ]}.

(** [{"ref_age": n}] *)
Definition ref_age_n (n : Z) : gmap string pyval := {[ "ref_age" := VInt n ]}.

(** [{"shelter_uid": "S1", "shelter_age": "seniors"}] *)
Definition shelter_seniors : gmap string pyval :=
  <["shelter_age" := VStr "seniors"]> shelter_S1.

(** The raw shelter row [{"shelter_id": "S1", "age_group": "seniors"}]. *)
Definition raw_shelter_seniors : gmap string pyval :=
  {[ "shelter_id" := VStr "S1"; "age_group" := VStr "seniors" ]}.

(** [{"ref_gender_bed_pref": "Female"}] *)
Definition ref_female : gmap string pyval :=
  {[ "ref_gender_bed_pref" := VStr "Female" ]}.

(** [{"shelter_uid": "S1", "shelter_gender": "single_women"}] *)
Definition shelter_women : gmap string pyval :=
  <["shelter_gender" := VStr "single_women"]> shelter_S1.

(** The same shelter with ["age_group": "seniors"]. *)
Definition shelter_women_seniors : gmap string pyval :=
  <["age_group" := VStr "seniors"]> shelter_women.



(** [{"S1": {"beds_available": 3}, "S2": {"beds_available": 1}}] *)
Definition beds_S1_S2 : gmap string (gmap string pyval) :=
  {[ "S1" := {[ "beds_available" := VInt 3 ]};
     "S2" := {[ "beds_available" := VInt 1 ]} ]}.

(** Referral 2 has an animal, referral 1 has none. *)
Definition referrals_2_1 : DataFrame :=
  {| columns := ["ref_row_id"; "ref_has_any_animal"];
     records :=
       [ {[ "ref_row_id" := VInt 2; "ref_has_any_animal" := VBool true ]};
         {[ "ref_row_id" := VInt 1; "ref_has_any_animal" := VBool false ]} ]
  |}.

(** Shelter S1 ("Beta") takes dogs, shelter S2 ("Alpha") has no pets
    field; both are in SPA 5. *)
Definition shelters_beta_alpha : DataFrame :=
  {| columns := ["shelter_uid"; "shelter_name"; "shelter_spa"; "shelter_pets"];
     records :=
       [ {[ "shelter_uid" := VStr "S1"; "shelter_name" := VStr "Beta";
            "shelter_spa" := VInt 5; "shelter_pets" := VStr "dogs" ]};
         {[ "shelter_uid" := VStr "S2"; "shelter_name" := VStr "Alpha";
            "shelter_spa" := VInt 5; "shelter_pets" := VNone ]} ]
  |}.


(** The identifying cells of a match row. *)
Definition row_summary (row : gmap string pyval) : pyval * pyval * pyval :=
  (get row "ref_row_id", get row "shelter_spa", get row "shelter_name").

(** Two raw bed rows for one shelter with the same date, 5 beds in the
    first and 7 in the second, then a row without a date. *)
Definition raw_beds_tie : list (gmap string pyval) :=
  [ {[ "ShelterID" := VStr "S1"; "Date" := VStr "2025-01-01";
       "BedsAvailable" := VInt 5 ]};
    {[ "ShelterID" := VStr "S1"; "Date" := VStr "2025-01-01";
       "BedsAvailable" := VInt 7 ]};
    {[ "ShelterID" := VStr "S2"; "BedsAvailable" := VInt 4 ]} ].

(** [{"ref_has_any_animal": "Yes"}] *)
Definition ref_with_animal : gmap string pyval :=
  {[ "ref_has_any_animal" := VStr "Yes" ]}.

(** [{"shelter_uid": "S1", "shelter_pets": "Dogs, no_pets_allowed"}] *)
Definition shelter_no_pets : gmap string pyval :=
  <["shelter_pets" := VStr "Dogs, no_pets_allowed"]> shelter_S1.

(** [{"ref_vehicle": True}] *)
Definition ref_with_vehicle : gmap string pyval :=
  {[ "ref_vehicle" := VBool true ]}.

(** The raw shelter row
    [{"shelter_id": "S1", "entry_requirements": "ID, Vehicle_Registration"}]. *)
Definition raw_shelter_vehicle : gmap string pyval :=
  {[ "shelter_id" := VStr "S1";
     "entry_requirements" := VStr "ID, Vehicle_Registration" ]}.

(** A bed lookup whose count for S1 is the text ["3"]. *)
Definition beds_S1_text : gmap string (gmap string pyval) :=
  {[ "S1" := {[ "beds_available" := VStr "3" ]} ]}.

(** A referral with its own SPA and preferred SPA set. *)
Definition ref_with_spa : gmap string pyval :=
  {[ "ref_spa" := VInt 4; "ref_preferred_spa" := VStr "4" ]}.

(** A raw bed row whose shelter id is written with an underscore. *)
Definition raw_bed_row_underscore : gmap string pyval :=
  {[ "ShelterID" := VStr "SHELTER_001"; "Date" := VStr "2025-11-19";
     "BedsAvailable" := VInt 10 ]}.

(** A sheet with the columns [Name] and [Age] and one row. *)
Definition sheet_name_age : sheet :=
  {| sheet_columns :=
       [ {| column_id := 11; column_title := "Name" |};
         {| column_id := 12; column_title := "Age" |} ];
     sheet_rows :=
       [ [ {| cell_column_id := 11; cell_value := VStr "Ann" |};
           {| cell_column_id := 12; cell_value := VInt 30 |} ] ] |}.

(** The raw shelter row [{"shelter_id": "S1"}]. *)
Definition raw_shelter_plain : gmap string pyval :=
  {[ "shelter_id" := VStr "S1" ]}.

(** The same row with ["age_group": "seniors"]. *)
Definition raw_shelter_plain_seniors : gmap string pyval :=
  <["age_group" := VStr "seniors"]> raw_shelter_plain.

(** The raw referral row [{"uid": 7, "age": 40}]. *)
Definition raw_referral_40 : gmap string pyval :=
  {[ "uid" := VInt 7; "age" := VInt 40 ]}.

(** One raw bed row for shelter S1. *)
Definition raw_beds_S1 : list (gmap string pyval) :=
  [ {[ "ShelterID" := VStr "S1"; "Date" := VStr "2025-11-19";
       "BedsAvailable" := VInt 2 ]} ].

End Examples.

(* ===================================================================== *)
(** ** Facts about the error monad and the string primitives *)
(* ===================================================================== *)

Lemma bind_Ok {A B} (m : result A) (f : A → result B) (b : B) :
  m ≫= f = Ok b → ∃ a, m = Ok a ∧ f a = Ok b.
Proof. destruct m as [a|e]; simpl; [eauto | discriminate]. Qed.

Lemma bind_Ok_l {A B} (a : A) (f : A → result B) : Ok a ≫= f = f a.
Proof. reflexivity. Qed.

Lemma bind_Raise_l {A B} (e : exn) (f : A → result B) :
  Raise e ≫= f = Raise e.
Proof. reflexivity. Qed.

Lemma contains_unfold needle hay :
  contains needle hay
  = String.prefix needle hay
    || match hay with
       | EmptyString => false
       | String _ r => contains needle r
       end.
Proof. destruct hay; reflexivity. Qed.

Lemma prefix_cons_inv c needle c' hay :
  String.prefix (String c needle) (String c' hay) = true →
  c = c' ∧ String.prefix needle hay = true.
Proof. simpl. destruct (ascii_dec c c'); [auto | discriminate]. Qed.

Lemma prefix_contains needle hay :
  String.prefix needle hay = true → contains needle hay = true.
Proof. intros Hp. rewrite contains_unfold, Hp. reflexivity. Qed.

(** A text that contains [c :: needle] contains [needle]. *)
Lemma contains_drop_head c needle hay :
  contains (String c needle) hay = true → contains needle hay = true.
Proof.
  induction hay as [|a hay IH]; rewrite contains_unfold.
  - simpl. discriminate.
  - intros [Hp | Hc]%orb_true_iff;
      rewrite (contains_unfold needle); apply orb_true_iff; right.
    + apply prefix_cons_inv in Hp as [_ Hp]. by apply prefix_contains.
    + by apply IH.
Qed.

Lemma contains_nonempty c needle hay :
  contains (String c needle) hay = true → nonempty hay = true.
Proof. destruct hay; [simpl; discriminate | reflexivity]. Qed.

Lemma lower_ascii_idemp c : lower_ascii (lower_ascii c) = lower_ascii c.
Proof. destruct c as [[] [] [] [] [] [] [] []]; reflexivity. Qed.

Lemma lower_idemp s : lower (lower s) = lower s.
Proof.
  induction s as [|c s IH]; simpl; [reflexivity|].
  by rewrite lower_ascii_idemp, IH.
Qed.

Lemma lower_fixed_forall s :
  lower s = s ↔ str_forall (λ a, Ascii.eqb (lower_ascii a) a) s = true.
Proof.
  induction s as [|c s IH]; simpl; [tauto|].
  rewrite andb_true_iff, Ascii.eqb_eq, <- IH.
  split; [intros [= Hc Hs]; done | intros [Hc Hs]; by rewrite Hc, Hs].
Qed.

Lemma lstrip_forall P s :
  str_forall P s = true → str_forall P (lstrip s) = true.
Proof.
  induction s as [|c s IH]; simpl; [done|].
  intros [Hc Hs]%andb_true_iff. destruct (is_space c); [auto|].
  simpl. by rewrite Hc, Hs.
Qed.

Lemma rstrip_forall P s :
  str_forall P s = true → str_forall P (rstrip s) = true.
Proof.
  induction s as [|c s IH]; simpl; [done|].
  intros [Hc Hs]%andb_true_iff. specialize (IH Hs).
  destruct (rstrip s) as [|c' r'].
  - destruct (is_space c); simpl; [done | by rewrite Hc].
  - simpl in *. by rewrite Hc, IH.
Qed.

Lemma strip_forall P s :
  str_forall P s = true → str_forall P (strip s) = true.
Proof. intros. by apply rstrip_forall, lstrip_forall. Qed.

(** [lstrip] leaves the empty string or a string whose first character
    is not a space, and [rstrip] keeps such a first character. *)
Lemma lstrip_head s :
  match lstrip s with
  | EmptyString => True
  | String c _ => is_space c = false
  end.
Proof.
  induction s as [|c s IH]; simpl; [done|].
  destruct (is_space c) eqn:Hc; [done | simpl; done].
Qed.

Lemma rstrip_head c s :
  is_space c = false → ∃ r, rstrip (String c s) = String c r.
Proof.
  intros Hc. simpl. destruct (rstrip s); [rewrite Hc|]; eauto.
Qed.

Lemma lstrip_fixed c s : is_space c = false → lstrip (String c s) = String c s.
Proof. intros Hc. simpl. by rewrite Hc. Qed.

Lemma rstrip_idemp s : rstrip (rstrip s) = rstrip s.
Proof.
  induction s as [|c s IH]; simpl; [done|].
  destruct (rstrip s) as [|c' r'] eqn:Hr.
  - destruct (is_space c) eqn:Hc; simpl; [done | by rewrite Hc].
  - change (rstrip (String c (String c' r'))) with
      (match rstrip (String c' r') with
       | EmptyString =>
           if is_space c then EmptyString else String c EmptyString
       | r'' => String c r''
       end).
    by rewrite IH.
Qed.

Lemma strip_idemp s : strip (strip s) = strip s.
Proof.
  unfold strip. pose proof (lstrip_head s) as Hh.
  destruct (lstrip s) as [|c r]; [reflexivity|].
  destruct (rstrip_head c r Hh) as [r' Hr]. rewrite Hr.
  rewrite (lstrip_fixed c r' Hh), <- Hr. apply rstrip_idemp.
Qed.

Lemma split_pieces_forall P sep s :
  str_forall P s = true →
  Forall (λ p, str_forall P p = true) (split sep s).
Proof.
  induction s as [|c s IH]; simpl; [by repeat constructor|].
  intros [Hc Hs]%andb_true_iff. specialize (IH Hs).
  destruct (Ascii.eqb c sep); [by constructor|].
  destruct (split sep s) as [|p ps]; simpl.
  - repeat constructor. simpl. by rewrite Hc.
  - inversion IH; subst. constructor; [simpl; by rewrite Hc | done].
Qed.

Lemma split_pieces_no_sep sep s :
  Forall (λ p, no_char sep p = true) (split sep s).
Proof.
  induction s as [|c s IH]; simpl; [by repeat constructor|].
  destruct (Ascii.eqb c sep) eqn:Hc; [by constructor|].
  destruct (split sep s) as [|p ps]; simpl.
  - repeat constructor. unfold no_char; simpl. by rewrite Hc.
  - inversion IH; subst. constructor; [|done].
    unfold no_char in *; simpl. by rewrite Hc.
Qed.

(* ===================================================================== *)
(** ** The debug matcher against the boolean matcher *)
(* ===================================================================== *)

Section DebugMatcher.
Context `{Builtins}.

(** Whatever the input, [debug_exact_match] never reports a match: each
    return before line 438 carries [False], and line 438 raises. *)
Lemma debug_exact_match_never_passes ref_row shelter_row beds reason :
  debug_exact_match ref_row shelter_row beds ≠ Ok (true, reason).
Proof.
  unfold debug_exact_match.
  destruct (le_zero _) as [[]|]; simpl; try discriminate.
  destruct (_to_int_or_none (get ref_row _)) as [x|]; simpl;
    try discriminate.
  destruct (_to_int_or_none (get shelter_row _)) as [y|]; simpl;
    try discriminate.
  destruct x as [x|], y as [y|]; try destruct (y =? x);
    repeat (case_match; simpl; try discriminate);
    destruct (gender_source_of ref_row); simpl; discriminate.
Qed.

(** C1, which the code breaks.  On a shelter with beds and a referral
    with no constraint, [is_exact_match] returns [True] while
    [debug_exact_match] raises [UnboundLocalError]; and on no input at
    all does [debug_exact_match] return a pass verdict. *)
Theorem debug_exact_match_diverges :
  is_exact_match Examples.ref_blank Examples.shelter_S1 Examples.beds_S1
    = Ok true
  ∧ debug_exact_match Examples.ref_blank Examples.shelter_S1 Examples.beds_S1
    = Raise UnboundLocalError
  ∧ ∀ ref_row shelter_row beds reason,
      debug_exact_match ref_row shelter_row beds ≠ Ok (true, reason).
Proof.
  split; [|split].
  - vm_compute. reflexivity.
  - vm_compute. reflexivity.
  - intros. apply debug_exact_match_never_passes.
Qed.

End DebugMatcher.

(* ===================================================================== *)
(** ** Integer coercion *)
(* ===================================================================== *)

Section Coercion.
Context `{Builtins}.

(** The only exception that leaves [_to_int_or_none] is the
    [OverflowError] of truncating an infinity. *)
Lemma _to_int_or_none_raise val e :
  _to_int_or_none val = Raise e → e = OverflowError.
Proof.
  unfold _to_int_or_none, int_of_float.
  repeat (case_match; simpl; try discriminate); congruence.
Qed.

(** On [None], NaN, integers, booleans and finite floats it returns. *)
Lemma _to_int_or_none_finite val :
  match val with
  | VFloat (FInf _) | VStr _ | VDate _ => True
  | _ => returns (_to_int_or_none val)
  end.
Proof. destruct val as [| | |[]| |]; simpl; exact I. Qed.

(** C7, which the code breaks.  A float infinity is not NaN, so line 49
    runs [int(val)] on it outside any [try]: the [OverflowError]
    escapes. *)
Theorem to_int_or_none_overflow :
  _to_int_or_none (VFloat (FInf false)) = Raise OverflowError
  ∧ _to_int_or_none (VFloat (FInf true)) = Raise OverflowError.
Proof. split; reflexivity. Qed.

End Coercion.

(** The text ["inf"] fails [int(s)], parses as a float, and the
    [OverflowError] of [int(float(s))] is not a [ValueError]. *)
Example to_int_or_none_inf_text :
  _to_int_or_none (VStr "inf") = Raise OverflowError
  ∧ _to_int_or_none (VStr "5.0") = Ok (Some 5)
  ∧ _to_int_or_none (VStr "abc") = Ok None
  ∧ _to_int_or_none (VStr "nan") = Ok None.
Proof. repeat split; vm_compute; reflexivity. Qed.

(* ===================================================================== *)
(** ** The SPA rule and the age rule on normalized shelters *)
(* ===================================================================== *)

Section NormalizedShelters.
Context `{Builtins}.

(** A shelter record out of [normalize_shelter_row] has no key
    ["age_group"], ["shelter_programs"] or ["shelter_demographics"]. *)
Lemma normalize_shelter_row_keys raw sh :
  normalize_shelter_row raw = Ok sh →
  sh !! "age_group" = None
  ∧ sh !! "shelter_programs" = None
  ∧ sh !! "shelter_demographics" = None
  ∧ sh !! "shelter_age" = Some (get raw "age_group")
  ∧ sh !! "shelter_uid" = Some (get raw "shelter_id").
Proof.
  unfold normalize_shelter_row. intros Hn.
  apply bind_Ok in Hn as (spa & _ & Hn). injection Hn as <-.
  repeat split; vm_compute; reflexivity.
Qed.

(** The SPA of a normalized shelter is an integer or [None]. *)
Lemma normalize_shelter_row_spa raw sh :
  normalize_shelter_row raw = Ok sh →
  get sh "shelter_spa" = VNone ∨ ∃ n, get sh "shelter_spa" = VInt n.
Proof.
  unfold normalize_shelter_row. intros Hn.
  apply bind_Ok in Hn as (spa & _ & Hn). injection Hn as <-.
  destruct spa as [n|]; [right; exists n | left]; vm_compute; reflexivity.
Qed.

(** An integer SPA is never found in the list of excluded tags, which
    holds strings: the exclusion cannot hit it. *)
Lemma spa_rule_integer ref_row shelter_row n :
  get shelter_row "shelter_spa" = VInt n →
  spa_rule ref_row shelter_row = true.
Proof.
  intros Hspa. unfold spa_rule. rewrite Hspa. simpl.
  destruct (is_nil _); reflexivity.
Qed.

(** The rule does reject a shelter without SPA, and a shelter whose SPA
    is the very text of an excluded tag. *)
Lemma spa_rule_absent_or_text ref_row shelter_row :
  _split_tags (get ref_row "ref_exclude_spa") ≠ [] →
  get shelter_row "shelter_spa" = VNone
  ∨ (∃ t, get shelter_row "shelter_spa" = VStr t
          ∧ t ∈ _split_tags (get ref_row "ref_exclude_spa")) →
  spa_rule ref_row shelter_row = false.
Proof.
  intros Hne Hspa. unfold spa_rule.
  destruct (_split_tags (get ref_row "ref_exclude_spa")) as [|t0 ts] eqn:Ht;
    [done|]. simpl.
  destruct Hspa as [-> | (t & -> & Hin)]; [done|].
  simpl. unfold mem. by rewrite bool_decide_eq_true_2.
Qed.

(** C2, which the code breaks.  The referral excludes SPA 4 and the
    shelter is in SPA 4, given directly or through the normalizer: the
    match passes, as it does for SPA 5.  The debug matcher, which
    compares integers, rejects the same pair. *)
Theorem spa_exclusion_misses_integer_spa :
  _split_tags (get Examples.ref_exclude_4 "ref_exclude_spa") = ["4"]
  ∧ is_exact_match Examples.ref_exclude_4 (Examples.shelter_spa_n 4)
      Examples.beds_S1 = Ok true
  ∧ (normalize_shelter_row Examples.raw_shelter_spa_4 ≫= λ sh,
       is_exact_match Examples.ref_exclude_4 sh Examples.beds_S1) = Ok true
  ∧ is_exact_match Examples.ref_exclude_4 (Examples.shelter_spa_n 5)
      Examples.beds_S1 = Ok true
  ∧ debug_exact_match Examples.ref_exclude_4 (Examples.shelter_spa_n 4)
      Examples.beds_S1
    = Ok (false, "SPA mismatch (ref exclude spa 4 vs shelter 4)").
Proof. repeat split; vm_compute; reflexivity. Qed.

(** On a normalized shelter the local [shelter_age] is always [["all"]]. *)
Lemma shelter_age_of_normalized raw sh :
  normalize_shelter_row raw = Ok sh → shelter_age_of sh = ["all"].
Proof.
  intros Hn. apply normalize_shelter_row_keys in Hn as (Hage & _).
  unfold shelter_age_of, get. rewrite Hage. reflexivity.
Qed.

(** When the tags are under the key the matcher reads, the age rule
    works as documented. *)
Lemma age_rule_age_group ref_row shelter_row age :
  _to_int_or_none (get ref_row "ref_age") = Ok (Some age) →
  (shelter_age_of shelter_row = ["seniors"] →
     age_rule ref_row shelter_row = Ok (55 <=? age))
  ∧ (shelter_age_of shelter_row = ["tay_teen"] →
     age_rule ref_row shelter_row = Ok (age <=? 24)).
Proof.
  intros Hage. unfold age_rule. rewrite Hage. simpl.
  split; intros ->; vm_compute is_exactly; simpl;
    [destruct (Z.ltb_spec age 55), (Z.leb_spec 55 age)
    |destruct (Z.gtb_spec age 24), (Z.leb_spec age 24)];
    simpl; try reflexivity; lia.
Qed.

(** C3, which the code breaks.  The shelter's [shelter_age] is
    [seniors] and the referral is 40: the match passes, for the record
    given directly and for the one the normalizer builds, because line
    311 reads the key ["age_group"], which no normalized shelter has. *)
Theorem age_rule_reads_wrong_key :
  _split_tags (get Examples.shelter_seniors "shelter_age") = ["seniors"]
  ∧ is_exact_match (Examples.ref_age_n 40) Examples.shelter_seniors
      Examples.beds_S1 = Ok true
  ∧ (normalize_shelter_row Examples.raw_shelter_seniors ≫= λ sh,
       is_exact_match (Examples.ref_age_n 40) sh Examples.beds_S1) = Ok true
  ∧ is_exact_match (Examples.ref_age_n 60) Examples.shelter_seniors
      Examples.beds_S1 = Ok true.
Proof. repeat split; vm_compute; reflexivity. Qed.

End NormalizedShelters.

(* ===================================================================== *)
(** ** The rules of [is_exact_match], one at a time *)
(* ===================================================================== *)

Section Rules.
Context `{Builtins}.

(** The match passes exactly when each of the six rules passes. *)
Lemma is_exact_match_true ref_row shelter_row beds :
  is_exact_match ref_row shelter_row beds = Ok true ↔
    beds_rule shelter_row beds = Ok true
    ∧ spa_rule ref_row shelter_row = true
    ∧ pets_rule ref_row shelter_row = true
    ∧ vehicle_rule ref_row shelter_row = true
    ∧ gender_rule ref_row shelter_row = Ok true
    ∧ age_rule ref_row shelter_row = Ok true.
Proof.
  unfold is_exact_match.
  destruct (beds_rule _ _) as [[]|]; simpl;
    [| split; [discriminate | intros (? & _); discriminate] ..].
  destruct (spa_rule _ _), (pets_rule _ _), (vehicle_rule _ _); simpl;
    try (split; [discriminate | intros (_ & ? & ? & ? & _); discriminate]).
  destruct (gender_rule _ _) as [[]|]; simpl;
    try (split; [discriminate | intros (_ & _ & _ & _ & ? & _); discriminate]).
  tauto.
Qed.


Lemma is_exact_match_gender_fails ref_row shelter_row beds :
  beds_rule shelter_row beds = Ok true →
  spa_rule ref_row shelter_row = true →
  pets_rule ref_row shelter_row = true →
  vehicle_rule ref_row shelter_row = true →
  gender_rule ref_row shelter_row = Ok false →
  is_exact_match ref_row shelter_row beds = Ok false.
Proof.
  intros Hb Hs Hp Hv Hg. unfold is_exact_match.
  rewrite Hb; simpl. rewrite Hs, Hp, Hv; simpl. rewrite Hg. reflexivity.
Qed.

(** ["male"] is inside ["female"] and ["man"] inside ["woman"]. *)
Lemma female_text_is_male_text src :
  contains "female" src = true ∨ contains "woman" src = true →
  existsb (λ kw, contains kw src) ["male"; "man"; "boy"] = true.
Proof.
  intros [Hf | Hw]; simpl.
  - do 2 apply contains_drop_head in Hf. rewrite Hf. reflexivity.
  - do 2 apply contains_drop_head in Hw. rewrite Hw.
    apply orb_true_iff; right. reflexivity.
Qed.

(** C4, for shelters that are not TAY- or seniors-focused.  A resolved
    gender text that contains ["female"] or ["woman"] also counts as a
    male preference, so against a shelter whose gender tags are exactly
    [["single_women"]] and whose age tags hold neither ["tay_teen"] nor
    ["seniors"] the gender rule fails and the pair does not match; the
    result is [False] when the four earlier rules pass. *)
Theorem female_text_rejected_by_women_shelter ref_row shelter_row beds src :
  gender_source_of ref_row = Ok src →
  contains "female" src = true ∨ contains "woman" src = true →
  _split_tags (get shelter_row "shelter_gender") = ["single_women"] →
  mem "tay_teen" (shelter_age_of shelter_row) = false →
  mem "seniors" (shelter_age_of shelter_row) = false →
  existsb (λ kw, contains kw src) ["male"; "man"; "boy"] = true
  ∧ gender_rule ref_row shelter_row = Ok false
  ∧ is_exact_match ref_row shelter_row beds ≠ Ok true
  ∧ (beds_rule shelter_row beds = Ok true →
     spa_rule ref_row shelter_row = true →
     pets_rule ref_row shelter_row = true →
     vehicle_rule ref_row shelter_row = true →
     is_exact_match ref_row shelter_row beds = Ok false).
Proof.
  intros Hsrc Hfem Hgender Htay Hsen.
  pose proof (female_text_is_male_text src Hfem) as Hmale.
  assert (Hne : nonempty src = true).
  { destruct Hfem as [Hc | Hc]; by apply contains_nonempty in Hc. }
  assert (Hrule : gender_rule ref_row shelter_row = Ok false).
  { unfold gender_rule. rewrite Hsrc, bind_Ok_l.
    unfold shelter_gender_of. rewrite Hgender.
    change (is_nil ["single_women"]) with false. cbv beta iota.
    rewrite Htay, Hsen, Hne, Hmale. reflexivity. }
  split; [exact Hmale | split; [exact Hrule | split]].
  - intros (_ & _ & _ & _ & Hg & _)%is_exact_match_true. congruence.
  - intros. by apply is_exact_match_gender_fails.
Qed.


End Rules.

(* ===================================================================== *)
(** ** Tag lists *)
(* ===================================================================== *)

Section Tags.
Context `{Builtins}.

(** The whole-cell test of line 89.  On a string, [_split_tags] returns
    nothing when the whole trimmed lower-case text is empty, ["nan"] or
    ["none"]; otherwise it returns, in order, the trimmed non-empty
    pieces of the comma split.  Every tag is non-empty, trimmed,
    lower-case and free of commas. *)
Lemma split_tags_of_string s :
  (∀ t, t ∈ _split_tags (VStr s) →
     nonempty t = true ∧ no_char "," t = true
     ∧ strip t = t ∧ lower t = t)
  ∧ (mem (lower (strip s)) [""; "nan"; "none"] = true →
     _split_tags (VStr s) = [])
  ∧ (mem (lower (strip s)) [""; "nan"; "none"] = false →
     _split_tags (VStr s)
     = filter (λ p, nonempty p = true)
         (map strip (split "," (lower (strip s)))))
  ∧ _split_tags (VStr "A, b,,nan") = ["a"; "b"; "nan"]
  ∧ _split_tags (VStr "nan") = []
  ∧ _split_tags (VStr " None ") = [].
Proof.
  assert (Hcases :
    mem (lower (strip s)) [""; "nan"; "none"] = true
      ∧ _split_tags (VStr s) = []
    ∨ mem (lower (strip s)) [""; "nan"; "none"] = false
      ∧ _split_tags (VStr s)
        = filter (λ p, nonempty p = true)
            (map strip (split "," (lower (strip s))))).
  { unfold _split_tags, py_str, mem.
    destruct (String.eqb_spec (lower (strip s)) "") as [-> | Hne]; [by left|].
    destruct (bool_decide (lower (strip s) ∈ ["nan"; "none"])) eqn:Hnan.
    - left. split; [|done]. apply bool_decide_eq_true in Hnan.
      apply bool_decide_eq_true. by right.
    - right. split; [|done]. apply bool_decide_eq_false in Hnan.
      apply bool_decide_eq_false. intros Hin.
      apply elem_of_cons in Hin as [? | ?]; done. }
  split; [|split; [|split; [|repeat split; vm_compute; reflexivity]]].
  - intros t Ht. destruct Hcases as [[_ Hnil] | [_ Heq]].
    { rewrite Hnil in Ht. by apply elem_of_nil in Ht. }
    rewrite Heq in Ht. apply list_elem_of_filter in Ht as [Hne Hin].
    apply list_elem_of_fmap in Hin as (p & -> & Hp).
    pose proof (split_pieces_no_sep "," (lower (strip s))) as Hsep.
    rewrite Forall_forall in Hsep. specialize (Hsep p Hp).
    assert (Hlow : str_forall (λ a, Ascii.eqb (lower_ascii a) a) p = true).
    { pose proof (split_pieces_forall
        (λ a, Ascii.eqb (lower_ascii a) a) "," (lower (strip s))) as Hf.
      rewrite Forall_forall in Hf. apply Hf; [|done].
      apply lower_fixed_forall, lower_idemp. }
    repeat split.
    + exact Hne.
    + by apply strip_forall.
    + apply strip_idemp.
    + by apply lower_fixed_forall, strip_forall.
  - intros Hm. destruct Hcases as [[_ ?] | [Hf _]]; [done | congruence].
  - intros Hm. destruct Hcases as [[Ht _] | [_ ?]]; [congruence | done].
Qed.

(** C6.  The docstring of [_split_tags] says that it ignores ["nan"] and
    ["none"] as real tags, and the specification drops these tokens from
    the tag list.  The code compares only the whole cell with them
    (line 89) and filters only the empty pieces (line 92): on
    ["A, b,,nan"] it returns [["a"; "b"; "nan"]], not [["a"; "b"]]; and
    on every ASCII text that is not as a whole empty, ["nan"] or
    ["none"], each comma piece that trims to ["nan"] or ["none"] comes
    back as a tag. *)
Theorem split_tags_returns_nan_token :
  _split_tags (VStr "A, b,,nan") = ["a"; "b"; "nan"]
  ∧ _split_tags (VStr "A, b,,nan") ≠ ["a"; "b"]
  ∧ ∀ s p,
      isascii s = true →
      mem (lower (strip s)) [""; "nan"; "none"] = false →
      p ∈ split "," (lower (strip s)) →
      strip p ∈ ["nan"; "none"] →
      strip p ∈ _split_tags (VStr s).
Proof.
  split; [vm_compute; reflexivity|].
  split; [vm_compute; discriminate|].
  intros s p _ Hwhole Hp Htok.
  destruct (split_tags_of_string s) as (_ & _ & Heq & _).
  rewrite (Heq Hwhole). apply list_elem_of_filter. split.
  - apply elem_of_cons in Htok as [-> | Htok]; [reflexivity|].
    apply elem_of_cons in Htok as [-> | Htok]; [reflexivity|].
    by apply elem_of_nil in Htok.
  - apply list_elem_of_fmap. by exists p.
Qed.

End Tags.

(* ===================================================================== *)
(** ** Worked examples of the rules *)
(* ===================================================================== *)

(** A referral asking for a female bed and a women-only shelter. *)
Lemma female_text_rejected_by_women_shelter_witness :
  gender_source_of Examples.ref_female = Ok "female"
  ∧ gender_rule Examples.ref_female Examples.shelter_women = Ok false
  ∧ is_exact_match Examples.ref_female Examples.shelter_women
      Examples.beds_S1 = Ok false.
Proof.
  destruct (female_text_rejected_by_women_shelter
              Examples.ref_female Examples.shelter_women Examples.beds_S1
              "female")
    as (_ & Hg & _ & Hm);
    [vm_compute; reflexivity | left; vm_compute; reflexivity
    | vm_compute; reflexivity ..|].
  split; [vm_compute; reflexivity | split; [exact Hg|]].
  apply Hm; vm_compute; reflexivity.
Defined.

(** The same referral matches the women-only shelter once its age group
    is seniors: the gender rule is skipped there. *)
Lemma seniors_women_shelter_accepts_female_text :
  gender_source_of Examples.ref_female = Ok "female"
  ∧ contains "female" "female" = true
  ∧ _split_tags (get Examples.shelter_women_seniors "shelter_gender")
    = ["single_women"]
  ∧ is_exact_match Examples.ref_female Examples.shelter_women_seniors
      Examples.beds_S1 = Ok true.
Proof. repeat split; vm_compute; reflexivity. Qed.



(* ===================================================================== *)
(** ** The order of the sort keys *)
(* ===================================================================== *)

Lemma string_leb_trans s1 s2 s3 :
  String.leb s1 s2 = true → String.leb s2 s3 = true →
  String.leb s1 s3 = true.
Proof.
  unfold String.leb. revert s2 s3.
  induction s1 as [|c1 s1 IH]; intros [|c2 s2] [|c3 s3]; simpl; try done.
  unfold Ascii.compare.
  destruct (N.compare_spec (N_of_ascii c1) (N_of_ascii c2)),
    (N.compare_spec (N_of_ascii c2) (N_of_ascii c3)),
    (N.compare_spec (N_of_ascii c1) (N_of_ascii c3));
    try done; try lia.
  apply IH.
Qed.

Lemma date_leb_total d e : date_leb d e = true ∨ date_leb e d = true.
Proof.
  unfold date_leb, date_compare.
  destruct (Z.compare_spec (year d) (year e)),
    (Z.compare_spec (year e) (year d)); try lia; auto;
  destruct (Z.compare_spec (month d) (month e)),
    (Z.compare_spec (month e) (month d)); try lia; auto;
  destruct (Z.compare_spec (day d) (day e)),
    (Z.compare_spec (day e) (day d)); try lia; auto.
Qed.

Lemma date_compare_lt_trans a b c :
  date_compare a b = Lt → date_compare b c = Lt → date_compare a c = Lt.
Proof.
  unfold date_compare.
  destruct (Z.compare_spec (year a) (year b)); try done;
  destruct (Z.compare_spec (year b) (year c)); try done;
  destruct (Z.compare_spec (year a) (year c)); try done; try lia;
  destruct (Z.compare_spec (month a) (month b)); try done;
  destruct (Z.compare_spec (month b) (month c)); try done;
  destruct (Z.compare_spec (month a) (month c)); try done; try lia;
  destruct (Z.compare_spec (day a) (day b)); try done;
  destruct (Z.compare_spec (day b) (day c)); try done;
  destruct (Z.compare_spec (day a) (day c)); try done; lia.
Qed.

Lemma date_compare_eq a b : date_compare a b = Eq → a = b.
Proof.
  unfold date_compare. destruct a as [y m d], b as [y' m' d']; simpl.
  destruct (Z.compare_spec y y'); try done;
  destruct (Z.compare_spec m m'); try done;
  destruct (Z.compare_spec d d'); try done. by subst.
Qed.

Lemma date_compare_refl a : date_compare a a = Eq.
Proof. unfold date_compare. by rewrite !Z.compare_refl. Qed.

Lemma date_leb_refl a : date_leb a a = true.
Proof. unfold date_leb. by rewrite date_compare_refl. Qed.

Lemma date_ltb_leb a b : date_ltb a b = true → date_leb a b = true.
Proof. unfold date_ltb, date_leb. by destruct (date_compare a b). Qed.

Lemma date_not_ltb_leb a b : date_ltb a b = false → date_leb b a = true.
Proof.
  unfold date_ltb. destruct (date_leb_total a b) as [Hab | Hba]; [|done].
  unfold date_leb in *. destruct (date_compare a b) eqn:Hc; try done.
  apply date_compare_eq in Hc as ->. by rewrite date_compare_refl.
Qed.

Lemma date_leb_ltb_trans a b c :
  date_leb a b = true → date_ltb b c = true → date_ltb a c = true.
Proof.
  unfold date_leb, date_ltb.
  destruct (date_compare a b) eqn:Hab; try done;
    destruct (date_compare b c) eqn:Hbc; try done; intros _ _.
  - apply date_compare_eq in Hab as ->. by rewrite Hbc.
  - by rewrite (date_compare_lt_trans a b c).
Qed.

Lemma date_leb_trans a b c :
  date_leb a b = true → date_leb b c = true → date_leb a c = true.
Proof.
  intros Hab. unfold date_leb at 1.
  destruct (date_compare b c) eqn:Hbc; try done; intros _.
  - by apply date_compare_eq in Hbc as <-.
  - apply date_ltb_leb, (date_leb_ltb_trans a b c); [done|].
    unfold date_ltb. by rewrite Hbc.
Qed.

Lemma key_leb_rank a b : key_leb a b = true → key_rank a <= key_rank b.
Proof. destruct a, b; simpl; try done; intros; lia. Qed.

Lemma key_leb_total a b : key_leb a b = true ∨ key_leb b a = true.
Proof.
  destruct a as [|p| |s|d|], b as [|q| |t|e|]; simpl; auto.
  - destruct (Qlt_le_dec p q) as [Hlt | Hle].
    + left. by apply Qle_bool_iff, Qlt_le_weak.
    + right. by apply Qle_bool_iff.
  - apply String.leb_total.
  - apply date_leb_total.
Qed.

Lemma key_leb_trans a b c :
  key_leb a b = true → key_leb b c = true → key_leb a c = true.
Proof.
  destruct a as [|p| |s|d|], b as [|q| |t|e|], c as [|r| |u|f|];
    simpl; try done.
  - rewrite !Qle_bool_iff. apply Qle_trans.
  - apply string_leb_trans.
  - apply date_leb_trans.
Qed.

(* ===================================================================== *)
(** ** The stable sort of the rows *)
(* ===================================================================== *)

(** The first sort column alone is ascending wherever the rows are. *)
Lemma row_leb_first_key c cols r1 r2 :
  row_leb (c :: cols) r1 r2 = true →
  key_leb (sort_key_of (get r1 c)) (sort_key_of (get r2 c)) = true.
Proof.
  unfold row_leb, row_keys; simpl.
  destruct (key_leb_total (sort_key_of (get r1 c)) (sort_key_of (get r2 c)))
    as [H1 | H2]; [done|].
  rewrite H2; simpl.
  destruct (key_leb (sort_key_of (get r1 c)) (sort_key_of (get r2 c)));
    simpl; done.
Qed.

Section Sorting.
Variable by_ : list string.

Lemma row_leb_total r1 r2 :
  row_leb by_ r1 r2 = true ∨ row_leb by_ r2 r1 = true.
Proof.
  unfold row_leb, row_keys.
  induction by_ as [|c cols IH]; simpl; [auto|].
  destruct (key_leb (sort_key_of (get r1 c)) (sort_key_of (get r2 c))),
    (key_leb (sort_key_of (get r2 c)) (sort_key_of (get r1 c)));
    simpl; auto.
Qed.

Lemma row_leb_trans r1 r2 r3 :
  row_leb by_ r1 r2 = true → row_leb by_ r2 r3 = true →
  row_leb by_ r1 r3 = true.
Proof.
  unfold row_leb, row_keys.
  induction by_ as [|c cols IH]; simpl; [auto|].
  set (k1 := sort_key_of (get r1 c)). set (k2 := sort_key_of (get r2 c)).
  set (k3 := sort_key_of (get r3 c)).
  pose proof (key_leb_trans k1 k2 k3). pose proof (key_leb_trans k2 k3 k1).
  pose proof (key_leb_trans k3 k1 k2). pose proof (key_leb_trans k3 k2 k1).
  pose proof (key_leb_trans k2 k1 k3). pose proof (key_leb_trans k1 k3 k2).
  pose proof (key_leb_total k1 k2) as T12.
  pose proof (key_leb_total k2 k3) as T23.
  pose proof (key_leb_total k1 k3) as T13.
  destruct (key_leb k1 k2), (key_leb k2 k1), (key_leb k2 k3),
    (key_leb k3 k2), (key_leb k1 k3), (key_leb k3 k1);
    simpl; auto; try done;
    try (by destruct T12); try (by destruct T23); try (by destruct T13);
    repeat match goal with
           | Hk : true = true → true = true → _ |- _ =>
               specialize (Hk eq_refl eq_refl)
           end; done.
Qed.

Lemma row_tie_leb r x y :
  row_tie by_ r x = true → row_tie by_ r y = true →
  row_leb by_ x y = true.
Proof.
  unfold row_tie. intros [_ Hxr]%andb_true_iff [Hry _]%andb_true_iff.
  by apply (row_leb_trans x r y).
Qed.

Lemma insert_row_perm x l : insert_row by_ x l ≡ₚ x :: l.
Proof.
  induction l as [|y l IH]; simpl; [done|].
  destruct (row_leb by_ x y); [done|].
  rewrite IH. apply Permutation_swap.
Qed.

Lemma sort_rows_perm l : sort_rows by_ l ≡ₚ l.
Proof.
  induction l as [|x l IH]; simpl; [done|].
  by rewrite insert_row_perm, IH.
Qed.

Lemma insert_row_sorted x l :
  StronglySorted (λ a b, row_leb by_ a b = true) l →
  StronglySorted (λ a b, row_leb by_ a b = true) (insert_row by_ x l).
Proof.
  induction 1 as [|y l Hs IH Hy]; simpl; [repeat constructor|].
  destruct (row_leb by_ x y) eqn:Hxy.
  - constructor; [by constructor|]. constructor; [done|].
    eapply Forall_impl; [exact Hy|]. intros z Hz; simpl in Hz.
    by apply (row_leb_trans x y z).
  - constructor; [done|]. rewrite insert_row_perm. constructor; [|done].
    by destruct (row_leb_total x y) as [Ht | Ht]; [congruence|].
Qed.

Lemma sort_rows_sorted l :
  StronglySorted (λ a b, row_leb by_ a b = true) (sort_rows by_ l).
Proof.
  induction l as [|x l IH]; simpl; [constructor|].
  by apply insert_row_sorted.
Qed.

(** Stability: the rows that tie with [r] come out in their input
    order. *)
Lemma insert_row_stable r x l :
  filter (λ y, row_tie by_ r y = true) (insert_row by_ x l)
  = filter (λ y, row_tie by_ r y = true) (x :: l).
Proof.
  induction l as [|y l IH]; simpl; [done|].
  destruct (row_leb by_ x y) eqn:Hxy; [done|].
  rewrite (filter_cons _ y), IH, !filter_cons.
  destruct (decide (row_tie by_ r x = true)) as [Hx|];
    destruct (decide (row_tie by_ r y = true)) as [Hy|]; try done.
  pose proof (row_tie_leb r x y Hx Hy). congruence.
Qed.

Lemma sort_rows_stable r l :
  filter (λ y, row_tie by_ r y = true) (sort_rows by_ l)
  = filter (λ y, row_tie by_ r y = true) l.
Proof.
  induction l as [|x l IH]; simpl; [done|].
  by rewrite insert_row_stable, !filter_cons, IH.
Qed.

Lemma row_leb_refl r : row_leb by_ r r = true.
Proof. by destruct (row_leb_total r r). Qed.

Lemma row_tie_refl r : row_tie by_ r r = true.
Proof. unfold row_tie. by rewrite row_leb_refl. Qed.

(** A sorted list is determined by the order of its rows inside each
    class of ties: whatever stable algorithm sorts the rows (pandas
    names merge sort), the outcome is the one of [sort_rows]. *)
Lemma stable_sorted_unique l1 l2 :
  StronglySorted (λ a b, row_leb by_ a b = true) l1 →
  StronglySorted (λ a b, row_leb by_ a b = true) l2 →
  (∀ r, filter (λ y, row_tie by_ r y = true) l1
        = filter (λ y, row_tie by_ r y = true) l2) →
  l1 = l2.
Proof.
  intros Hs1. revert l2.
  induction Hs1 as [|a l1 Hs1 IH Ha]; intros l2 Hs2 Hf.
  - destruct l2 as [|b l2]; [done|]. specialize (Hf b).
    rewrite filter_nil, filter_cons_True in Hf by apply row_tie_refl. done.
  - destruct Hs2 as [|b l2 Hs2 Hb].
    { specialize (Hf a).
      rewrite filter_nil, filter_cons_True in Hf by apply row_tie_refl. done. }
    rewrite Forall_forall in Ha, Hb.
    assert (Hba : row_leb by_ b a = true).
    { pose proof (Hf a) as Hfa.
      rewrite (filter_cons_True _ a) in Hfa by apply row_tie_refl.
      assert (Hin : a ∈ b :: l2).
      { eapply (list_elem_of_filter (λ y, row_tie by_ a y = true)).
        rewrite <- Hfa. apply list_elem_of_here. }
      apply elem_of_cons in Hin as [-> | Hin]; [apply row_leb_refl | auto]. }
    assert (Hab : row_leb by_ a b = true).
    { pose proof (Hf b) as Hfb.
      rewrite (filter_cons_True _ b (l2)) in Hfb by apply row_tie_refl.
      assert (Hin : b ∈ a :: l1).
      { eapply (list_elem_of_filter (λ y, row_tie by_ b y = true)).
        rewrite Hfb. apply list_elem_of_here. }
      apply elem_of_cons in Hin as [-> | Hin]; [apply row_leb_refl | auto]. }
    assert (Heq : a = b).
    { pose proof (Hf a) as Hfa.
      rewrite !filter_cons_True in Hfa;
        [by injection Hfa | | apply row_tie_refl].
      unfold row_tie. by rewrite Hab, Hba. }
    subst b. f_equal. apply IH; [done|]. intros r.
    specialize (Hf r). rewrite !filter_cons in Hf.
    destruct (decide (row_tie by_ r a = true)); [by injection Hf | done].
Qed.

Lemma sort_rows_unique l l' :
  StronglySorted (λ a b, row_leb by_ a b = true) l' →
  (∀ r, filter (λ y, row_tie by_ r y = true) l'
        = filter (λ y, row_tie by_ r y = true) l) →
  l' = sort_rows by_ l.
Proof.
  intros Hs Hf. apply stable_sorted_unique; [done | apply sort_rows_sorted |].
  intros r. by rewrite Hf, sort_rows_stable.
Qed.

End Sorting.

(* ===================================================================== *)
(** ** The match builder *)
(* ===================================================================== *)

Lemma StronglySorted_lookup {A} (R : A → A → Prop) (l : list A) i j a b :
  StronglySorted R l → (i < j)%nat →
  l !! i = Some a → l !! j = Some b → R a b.
Proof.
  intros Hs. revert i j. induction Hs as [|x l Hs IH Hx]; intros i j Hij.
  - by rewrite lookup_nil.
  - destruct i as [|i], j as [|j]; try lia; simpl.
    + intros [= ->] Hb. rewrite Forall_forall in Hx.
      apply Hx. by eapply list_elem_of_lookup_2.
    + apply IH. lia.
Qed.

Section Builder.
Context `{Builtins}.

Lemma match_shelters_spec ref shelters beds rows :
  match_shelters ref shelters beds = Ok rows →
  rows = map (λ shelter, match_row ref shelter beds)
           (filter (λ shelter,
              passes (is_exact_match ref shelter beds) = true) shelters).
Proof.
  revert rows. induction shelters as [|sh shelters IH]; simpl; intros rows.
  - by intros [= <-].
  - intros (ok & Hok & Hrest)%bind_Ok.
    apply bind_Ok in Hrest as (rest & Hrest & [= <-]).
    rewrite filter_cons. specialize (IH _ Hrest).
    destruct (decide (passes (is_exact_match ref sh beds) = true)) as [Hp | Hp];
      rewrite Hok in Hp; destruct ok; simpl in Hp; try done;
      simpl; by rewrite <- IH.
Qed.

Lemma match_rows_of_spec referrals shelters beds rows :
  match_rows_of referrals shelters beds = Ok rows →
  rows = map (λ '(ref, shelter), match_row ref shelter beds)
           (matching_pairs referrals shelters beds).
Proof.
  revert rows. induction referrals as [|ref referrals IH]; simpl; intros rows.
  - by intros [= <-].
  - intros (here & Hhere & Hrest)%bind_Ok.
    apply bind_Ok in Hrest as (more & Hmore & [= <-]).
    rewrite map_app, <- (IH _ Hmore), map_map.
    by rewrite (match_shelters_spec _ _ _ _ Hhere).
Qed.




(** C10.  The rows [build_matches] returns are the rows of the matching
    pairs, reordered: ascending by referral id, then by shelter SPA,
    then by shelter name, and rows that tie on the three keys stay in
    the order in which the nested loops met them. *)
Theorem build_matches_sorted_stable referrals_df shelters_df beds df :
  build_matches referrals_df shelters_df beds = Ok df →
  let encountered :=
    map (λ '(ref, shelter), match_row ref shelter beds)
      (matching_pairs (records referrals_df) (records shelters_df) beds) in
  columns df = MATCH_COLUMNS
  ∧ records df ≡ₚ encountered
  ∧ StronglySorted (λ a b, row_leb SORT_COLUMNS a b = true) (records df)
  ∧ (∀ (i j : nat) a b,
       (i < j)%nat → records df !! i = Some a → records df !! j = Some b →
       row_leb SORT_COLUMNS a b = true
       ∧ key_leb (sort_key_of (get a "ref_row_id"))
           (sort_key_of (get b "ref_row_id")) = true)
  ∧ (∀ r, filter (λ y, row_tie SORT_COLUMNS r y = true) (records df)
          = filter (λ y, row_tie SORT_COLUMNS r y = true) encountered)
  ∧ (∀ rows',
       StronglySorted (λ a b, row_leb SORT_COLUMNS a b = true) rows' →
       (∀ r, filter (λ y, row_tie SORT_COLUMNS r y = true) rows'
             = filter (λ y, row_tie SORT_COLUMNS r y = true) encountered) →
       rows' = records df).
Proof.
  intros Hb encountered. unfold build_matches in Hb. cbv zeta in Hb.
  apply bind_Ok in Hb as (rows & Hrows & Hdf).
  apply match_rows_of_spec in Hrows. fold encountered in Hrows. subst rows.
  assert (Hrec : records df = sort_rows SORT_COLUMNS encountered
                 ∧ columns df = MATCH_COLUMNS).
  { destruct encountered; simpl in Hdf; by injection Hdf as <-. }
  destruct Hrec as [Hrec Hcol]. rewrite Hrec.
  pose proof (sort_rows_sorted SORT_COLUMNS encountered) as Hsorted.
  split; [done|]. split; [apply sort_rows_perm|]. split; [done|]. split.
  - intros i j a b Hij Ha Hb.
    pose proof (StronglySorted_lookup _ _ i j a b Hsorted Hij Ha Hb) as Hab.
    split; [done|]. by apply (row_leb_first_key _ _ _ _ Hab).
  - split; [intros r; apply sort_rows_stable|].
    intros rows' Hs' Hf'. by apply sort_rows_unique.
Qed.

End Builder.


(** Three matching pairs met with referral ids 2, 1, 1. *)
Lemma build_matches_sorted_stable_witness :
  ∃ df,
    build_matches Examples.referrals_2_1 Examples.shelters_beta_alpha
      Examples.beds_S1_S2 = Ok df
    ∧ map Examples.row_summary
        (map (λ '(ref, shelter),
                match_row ref shelter Examples.beds_S1_S2)
           (matching_pairs (records Examples.referrals_2_1)
              (records Examples.shelters_beta_alpha) Examples.beds_S1_S2))
      = [ (VInt 2, VInt 5, VStr "Beta"); (VInt 1, VInt 5, VStr "Beta");
          (VInt 1, VInt 5, VStr "Alpha") ]
    ∧ map Examples.row_summary (records df)
      = [ (VInt 1, VInt 5, VStr "Alpha"); (VInt 1, VInt 5, VStr "Beta");
          (VInt 2, VInt 5, VStr "Beta") ]
    ∧ StronglySorted (λ a b, row_leb SORT_COLUMNS a b = true) (records df).
Proof.
  eexists. split; [vm_compute; reflexivity|].
  split; [vm_compute; reflexivity|]. split; [vm_compute; reflexivity|].
  eapply (build_matches_sorted_stable Examples.referrals_2_1
            Examples.shelters_beta_alpha Examples.beds_S1_S2).
  vm_compute; reflexivity.
Defined.

(* ===================================================================== *)
(** ** The latest bed record of each shelter *)
(* ===================================================================== *)

Lemma kept_inj row uid d uid' d' :
  kept row uid d → kept row uid' d' → uid = uid' ∧ d = d'.
Proof. intros [Hu Hd] [Hu' Hd']. split; congruence. Qed.

Lemma first_latest_bound rows uid row d r' d' :
  first_latest rows uid row d → r' ∈ rows → kept r' uid d' →
  date_leb d' d = true.
Proof.
  intros (before & after & -> & Hk & Hb & Ha) Hin Hk'.
  apply elem_of_app in Hin as [Hin | Hin].
  - by apply date_ltb_leb, (Hb r').
  - apply elem_of_cons in Hin as [-> | Hin]; [|by apply (Ha r')].
    destruct (kept_inj _ _ _ _ _ Hk Hk') as [_ ->]. apply date_leb_refl.
Qed.

Lemma first_latest_snoc rows uid row d new :
  first_latest rows uid row d →
  (∀ d', kept new uid d' → date_leb d' d = true) →
  first_latest (rows ++ [new]) uid row d.
Proof.
  intros (before & after & -> & Hk & Hb & Ha) Hnew.
  exists before, (after ++ [new]). split; [by rewrite <- app_assoc|].
  split; [done|]. split; [done|]. intros r' d' Hin Hk'.
  apply elem_of_app in Hin as [Hin | Hin]; [by apply (Ha r')|].
  apply list_elem_of_singleton in Hin as ->. by apply Hnew.
Qed.

Lemma first_latest_new rows uid new d :
  kept new uid d →
  (∀ r' d', r' ∈ rows → kept r' uid d' → date_ltb d' d = true) →
  first_latest (rows ++ [new]) uid new d.
Proof.
  intros Hk Hb. exists rows, []. repeat split; try done.
  - apply Hk.
  - apply Hk.
  - intros r' d' Hin. by apply elem_of_nil in Hin.
Qed.

Lemma bed_entry_date d n : bed_entry d n !! "date" = Some (VDate d).
Proof. unfold bed_entry. apply lookup_insert_eq. Qed.

(** One iteration keeps the invariant and does not raise. *)
Lemma latest_step_inv done latest row :
  latest_inv done latest →
  ∃ latest', latest_step latest row = Ok latest'
             ∧ latest_inv (done ++ [row]) latest'.
Proof.
  intros Hinv. unfold latest_step.
  destruct (bed_shelter_uid row) as [uid|] eqn:Huid;
    [destruct (bed_date row) as [d|] eqn:Hd|].
  - (* the row is kept for [uid] with date [d] *)
    assert (Hk : kept row uid d) by done.
    assert (Hother : ∀ uid', uid' ≠ uid → ∀ d', ¬ kept row uid' d').
    { intros uid' Hne d' [Hu _]. congruence. }
    pose proof (Hinv uid) as Hcur.
    destruct (latest !! uid) as [entry|] eqn:Hl.
    + destruct Hcur as (row0 & d0 & Hfirst & ->).
      rewrite bed_entry_date. simpl.
      destruct (date_ltb d0 d) eqn:Hlt; eexists; (split; [reflexivity|]).
      * (* strictly newer: the entry is replaced *)
        intros uid'. destruct (decide (uid' = uid)) as [-> | Hne].
        -- rewrite lookup_insert_eq. exists row, d. split; [|done].
           apply first_latest_new; [done|]. intros r' d' Hin Hk'.
           apply (date_leb_ltb_trans d' d0 d); [|done].
           by apply (first_latest_bound done uid row0 d0 r').
        -- rewrite lookup_insert_ne by done. specialize (Hinv uid').
           destruct (latest !! uid') as [e'|].
           ++ destruct Hinv as (r1 & d1 & Hf1 & ->). exists r1, d1.
              split; [|done]. apply first_latest_snoc; [done|].
              intros d' Hk'. by destruct (Hother uid' Hne d').
           ++ intros r' d' Hin Hk'.
              apply elem_of_app in Hin as [Hin | Hin]; [by apply (Hinv r' d')|].
              apply list_elem_of_singleton in Hin as ->.
              by apply (Hother uid' Hne d').
      * (* not newer: the entry stays *)
        intros uid'. destruct (decide (uid' = uid)) as [-> | Hne].
        -- rewrite Hl. exists row0, d0. split; [|done].
           apply first_latest_snoc; [done|]. intros d' Hk'.
           destruct (kept_inj _ _ _ _ _ Hk Hk') as [_ <-].
           by apply date_not_ltb_leb.
        -- specialize (Hinv uid').
           destruct (latest !! uid') as [e'|].
           ++ destruct Hinv as (r1 & d1 & Hf1 & ->). exists r1, d1.
              split; [|done]. apply first_latest_snoc; [done|].
              intros d' Hk'. by destruct (Hother uid' Hne d').
           ++ intros r' d' Hin Hk'.
              apply elem_of_app in Hin as [Hin | Hin]; [by apply (Hinv r' d')|].
              apply list_elem_of_singleton in Hin as ->.
              by apply (Hother uid' Hne d').
    + (* first row for [uid] *)
      simpl. eexists; split; [reflexivity|].
      intros uid'. destruct (decide (uid' = uid)) as [-> | Hne].
      * rewrite lookup_insert_eq. exists row, d. split; [|done].
        apply first_latest_new; [done|]. intros r' d' Hin Hk'.
        by destruct (Hcur r' d').
      * rewrite lookup_insert_ne by done. specialize (Hinv uid').
        destruct (latest !! uid') as [e'|].
        -- destruct Hinv as (r1 & d1 & Hf1 & ->). exists r1, d1.
           split; [|done]. apply first_latest_snoc; [done|].
           intros d' Hk'. by destruct (Hother uid' Hne d').
        -- intros r' d' Hin Hk'.
           apply elem_of_app in Hin as [Hin | Hin]; [by apply (Hinv r' d')|].
           apply list_elem_of_singleton in Hin as ->.
           by apply (Hother uid' Hne d').
  - (* no date: the row is skipped *)
    exists latest. split; [done|]. intros uid'. specialize (Hinv uid').
    destruct (latest !! uid') as [e'|].
    + destruct Hinv as (r1 & d1 & Hf1 & ->). exists r1, d1.
      split; [|done]. apply first_latest_snoc; [done|].
      intros d' [_ Hk']. congruence.
    + intros r' d' Hin Hk'.
      apply elem_of_app in Hin as [Hin | Hin]; [by apply (Hinv r' d')|].
      apply list_elem_of_singleton in Hin as ->.
      destruct Hk' as [_ Hk']. congruence.
  - (* no shelter id: the row is skipped *)
    exists latest. split; [done|]. intros uid'. specialize (Hinv uid').
    destruct (latest !! uid') as [e'|].
    + destruct Hinv as (r1 & d1 & Hf1 & ->). exists r1, d1.
      split; [|done]. apply first_latest_snoc; [done|].
      intros d' [Hk' _]. congruence.
    + intros r' d' Hin Hk'.
      apply elem_of_app in Hin as [Hin | Hin]; [by apply (Hinv r' d')|].
      apply list_elem_of_singleton in Hin as ->.
      destruct Hk' as [Hk' _]. congruence.
Qed.

Lemma latest_loop_inv rest : ∀ done latest,
  latest_inv done latest →
  ∃ latest', latest_loop latest rest = Ok latest'
             ∧ latest_inv (done ++ rest) latest'.
Proof.
  induction rest as [|row rest IH]; intros done latest Hinv; simpl.
  - exists latest. by rewrite app_nil_r.
  - destruct (latest_step_inv done latest row Hinv) as (l1 & -> & Hinv1).
    rewrite bind_Ok_l.
    destruct (IH _ _ Hinv1) as (l2 & Hl2 & Hinv2).
    exists l2. split; [done|]. by rewrite <- app_assoc in Hinv2.
Qed.

Section LatestBeds.
Context `{Builtins}.

(** Which rows [normalize_bed_row] leaves without an id or a date. *)
Lemma normalize_bed_row_dropped raw row :
  normalize_bed_row raw = Ok row →
  (bed_shelter_uid row = None ↔ get raw "ShelterID" = VNone)
  ∧ (bed_date row = None ↔
       truthy (get raw "Date") = false
       ∨ ∃ s, get raw "Date" = VStr s ∧ date_fromisoformat s = None).
Proof.
  unfold normalize_bed_row. cbv zeta.
  intros (beds & _ & Hrest)%bind_Ok.
  apply bind_Ok in Hrest as (parsed & Hparsed & [= <-]). simpl. split.
  - by destruct (get raw "ShelterID").
  - destruct (truthy (get raw "Date")) eqn:Ht.
    + destruct (get raw "Date") as [| | | |s|] eqn:Hdate; try done.
      injection Hparsed as <-. split.
      * intros Hnone. right. by exists s.
      * intros [? | (s' & [= <-] & ?)]; done.
    + injection Hparsed as <-. split; [by left | done].
Qed.

(** A row whose date cell is text or empty and whose bed count is not an
    infinity normalizes without raising. *)
Lemma normalize_bed_row_returns raw :
  match get raw "Date" with VNone | VStr _ => True | _ => False end →
  match get raw "BedsAvailable" with VFloat (FInf _) => False | _ => True end →
  returns (normalize_bed_row raw).
Proof.
  unfold normalize_bed_row. cbv zeta. intros Hdate Hbeds.
  destruct (get raw "BedsAvailable") as [| | |[| |]|s|]; try done; simpl;
    try destruct (int_of_str s); simpl;
    destruct (get raw "Date") as [| | | |t|]; try done; simpl;
    by destruct (negb _).
Qed.

(** C8, with ties resolved as the strict comparison resolves them.
    When no row raises, [get_latest_beds_by_shelter] returns a map that
    has no entry for a shelter without a row carrying both an id and a
    parsed date, and whose entry for any other shelter is the date and
    bed count of the first row, in input order, that carries the
    maximum date of that shelter. *)
Theorem latest_beds_first_of_maximum raw_rows rows :
  get_bed_availability raw_rows = Ok rows →
  (∃ latest,
     get_latest_beds_by_shelter raw_rows = Ok latest
     ∧ ∀ uid,
         match latest !! uid with
         | None => ∀ row d, row ∈ rows → ¬ kept row uid d
         | Some entry =>
             ∃ row d, first_latest rows uid row d
                      ∧ entry = bed_entry d (bed_beds_available row)
         end)
  ∧ (∀ raw row,
       normalize_bed_row raw = Ok row →
       (bed_shelter_uid row = None ↔ get raw "ShelterID" = VNone)
       ∧ (bed_date row = None ↔
            truthy (get raw "Date") = false
            ∨ ∃ s, get raw "Date" = VStr s ∧ date_fromisoformat s = None)).
Proof.
  intros Hrows. split; [|apply normalize_bed_row_dropped].
  unfold get_latest_beds_by_shelter. rewrite Hrows, bind_Ok_l.
  destruct (latest_loop_inv rows [] ∅) as (latest & Hl & Hinv).
  - intros uid. rewrite lookup_empty. intros row d Hin.
    by apply elem_of_nil in Hin.
  - exists latest. split; [done|]. exact Hinv.
Qed.

End LatestBeds.

(** Two rows with the same date: the entry holds the 5 beds of the first
    row, not the 7 beds of the last. *)
Lemma latest_beds_tie_keeps_first :
  get_latest_beds_by_shelter Examples.raw_beds_tie
    = Ok {[ "S1" := bed_entry (Date 2025 1 1) 5 ]}
  ∧ get_latest_beds_by_shelter Examples.raw_beds_tie
    ≠ Ok {[ "S1" := bed_entry (Date 2025 1 1) 7 ]}.
Proof. split; [vm_compute; reflexivity | vm_compute; discriminate]. Qed.

(** The same rows: shelter S1 has an entry, shelter S2, whose only row
    has no date, has none. *)
Lemma latest_beds_first_of_maximum_witness :
  ∃ rows latest,
    get_bed_availability Examples.raw_beds_tie = Ok rows
    ∧ get_latest_beds_by_shelter Examples.raw_beds_tie = Ok latest
    ∧ ∀ uid,
        match latest !! uid with
        | None => ∀ row d, row ∈ rows → ¬ kept row uid d
        | Some entry =>
            ∃ row d, first_latest rows uid row d
                     ∧ entry = bed_entry d (bed_beds_available row)
        end.
Proof.
  eexists.
  destruct (latest_beds_first_of_maximum Examples.raw_beds_tie _
              ltac:(vm_compute; reflexivity)) as [(latest & Hl & Hinv) _].
  exists latest. split; [vm_compute; reflexivity|]. split; [exact Hl|].
  exact Hinv.
Defined.

(* ===================================================================== *)
(** * Further properties of the sources *)
(* ===================================================================== *)

(** ** The six rules, beyond the cases above *)

Section MoreRules.
Context `{Builtins}.

Lemma is_exact_match_not_true_beds ref_row shelter_row beds :
  beds_rule shelter_row beds = Ok false →
  is_exact_match ref_row shelter_row beds = Ok false.
Proof. intros Hb. unfold is_exact_match. by rewrite Hb. Qed.

(** A shelter without an id, without an entry in the bed lookup, without
    a count in its entry, or with a count that is [None], zero or
    negative matches no referral. *)
Theorem no_beds_no_match ref_row shelter_row beds :
  truthy (get shelter_row "shelter_uid") = false
  ∨ (∀ k, get shelter_row "shelter_uid" = VStr k → beds !! k = None)
  ∨ bed_info_of beds (get shelter_row "shelter_uid") !! "beds_available"
    = Some VNone
  ∨ (∃ n, bed_info_of beds (get shelter_row "shelter_uid")
            !! "beds_available" = Some (VInt n) ∧ n <= 0) →
  is_exact_match ref_row shelter_row beds = Ok false.
Proof.
  intros Hcase. apply is_exact_match_not_true_beds. unfold beds_rule.
  destruct (truthy (get shelter_row "shelter_uid")) eqn:Hu; simpl; [|done].
  destruct Hcase as [Hf | [Hmiss | [Hnone | (n & Hn & Hle)]]]; [done| | |].
  - assert (Hinfo : bed_info_of beds (get shelter_row "shelter_uid") = ∅).
    { unfold bed_info_of. destruct (get shelter_row "shelter_uid"); try done.
      by rewrite Hmiss. }
    by rewrite Hinfo.
  - unfold beds_available_of. by rewrite Hnone.
  - unfold beds_available_of. rewrite Hn. simpl.
    by destruct (Z.leb_spec n 0); [|lia].
Qed.

(** A referral without an animal passes the pets rule of every shelter,
    whatever its pet tags; a referral with an animal matches no shelter
    whose pet tags are empty or hold ["no_pets_allowed"]. *)
Theorem pets_rule_rejects ref_row shelter_row beds :
  (_to_bool (get ref_row "ref_has_any_animal") = false →
   pets_rule ref_row shelter_row = true)
  ∧ (_to_bool (get ref_row "ref_has_any_animal") = true →
     _split_tags (get shelter_row "shelter_pets") = []
     ∨ "no_pets_allowed" ∈ _split_tags (get shelter_row "shelter_pets") →
     pets_rule ref_row shelter_row = false
     ∧ is_exact_match ref_row shelter_row beds ≠ Ok true).
Proof.
  split.
  - intros Hno. unfold pets_rule. by rewrite Hno.
  - intros Hanimal Htags.
    assert (Hp : pets_rule ref_row shelter_row = false).
    { unfold pets_rule. rewrite Hanimal.
      destruct Htags as [-> | Hin]; [done|].
      unfold mem. rewrite (bool_decide_eq_true_2 _ Hin).
      by destruct (is_nil _). }
    split; [done|].
    intros (_ & _ & Hp' & _)%is_exact_match_true. congruence.
Qed.

(** After normalization a shelter has no program tags, so a referral
    with a vehicle is matched only to shelters whose entry requirements
    list ["vehicle_registration"]. *)
Theorem vehicle_needs_registration_after_normalization
    ref_row raw shelter_row beds :
  normalize_shelter_row raw = Ok shelter_row →
  _to_bool (get ref_row "ref_vehicle") = true →
  is_exact_match ref_row shelter_row beds = Ok true →
  "vehicle_registration" ∈ _split_tags (get raw "entry_requirements").
Proof.
  intros Hn Hv (_ & _ & _ & Hrule & _)%is_exact_match_true.
  pose proof (normalize_shelter_row_keys raw shelter_row Hn)
    as (_ & Hprog & _).
  assert (Hreq : shelter_row !! "shelter_entry_requirements"
                 = Some (get raw "entry_requirements")).
  { unfold normalize_shelter_row in Hn.
    apply bind_Ok in Hn as (spa & _ & [= <-]). vm_compute. reflexivity. }
  unfold vehicle_rule in Hrule. rewrite Hv in Hrule.
  unfold get in Hrule at 1 2 3. rewrite Hprog, Hreq in Hrule.
  simpl in Hrule. by apply bool_decide_eq_true in Hrule.
Qed.







(** The result depends on six fields of the referral and seven of the
    shelter and on nothing else: the referral's own SPA, its preferred
    SPA and its location play no part, nor does the shelter's
    [shelter_age]. *)
Theorem is_exact_match_reads_only ref_row ref_row' shelter_row shelter_row'
    beds :
  (∀ k, k ∈ REFERRAL_KEYS_READ → get ref_row k = get ref_row' k) →
  (∀ k, k ∈ SHELTER_KEYS_READ → get shelter_row k = get shelter_row' k) →
  is_exact_match ref_row shelter_row beds
  = is_exact_match ref_row' shelter_row' beds.
Proof.
  intros Hr Hs.
  assert (Hr' : Forall (λ k, get ref_row k = get ref_row' k)
                  REFERRAL_KEYS_READ) by by apply Forall_forall.
  assert (Hs' : Forall (λ k, get shelter_row k = get shelter_row' k)
                  SHELTER_KEYS_READ) by by apply Forall_forall.
  unfold REFERRAL_KEYS_READ in Hr'. unfold SHELTER_KEYS_READ in Hs'.
  repeat match goal with
         | Hf : Forall _ (_ :: _) |- _ =>
             let Hh := fresh "Hk" in
             apply Forall_cons in Hf as [Hh Hf]
         end.
  unfold is_exact_match, beds_rule, spa_rule, pets_rule, vehicle_rule,
    gender_rule, gender_source_of, age_rule, shelter_age_of,
    shelter_gender_of.
  repeat match goal with
         | Hk : get _ _ = get _ _ |- _ => rewrite Hk; clear Hk
         end.
  reflexivity.
Qed.

Lemma is_exact_match_pure_fails ref_row shelter_row beds :
  beds_rule shelter_row beds = Ok true →
  pets_rule ref_row shelter_row = false
  ∨ vehicle_rule ref_row shelter_row = false →
  is_exact_match ref_row shelter_row beds = Ok false.
Proof.
  intros Hb Hf. unfold is_exact_match. rewrite Hb; simpl.
  destruct (spa_rule _ _), (pets_rule _ _), (vehicle_rule _ _); simpl;
    try done; by destruct Hf.
Qed.

(** A pair that [debug_exact_match] rejects for its beds, its pets or
    its vehicle is a pair that [is_exact_match] rejects. *)
Theorem debug_reason_sound ref_row shelter_row beds reason :
  debug_exact_match ref_row shelter_row beds = Ok (false, reason) →
  reason ∈ SHARED_REASONS →
  is_exact_match ref_row shelter_row beds = Ok false.
Proof.
  intros Hd Hin.
  destruct (truthy (get shelter_row "shelter_uid")) eqn:Hu;
    [|apply is_exact_match_not_true_beds; unfold beds_rule; by rewrite Hu].
  unfold debug_exact_match in Hd. rewrite Hu in Hd.
  destruct (le_zero _) as [no_beds|] eqn:Hle; simpl in Hd; [|done].
  destruct no_beds.
  { apply is_exact_match_not_true_beds. unfold beds_rule.
    rewrite Hu; simpl. by rewrite Hle. }
  assert (Hb : beds_rule shelter_row beds = Ok true).
  { unfold beds_rule. rewrite Hu; simpl. by rewrite Hle. }
  apply is_exact_match_pure_fails; [done|].
  destruct (_to_int_or_none (get ref_row _)) as [x|]; simpl in Hd; [|done].
  destruct (_to_int_or_none (get shelter_row _)) as [y|]; simpl in Hd;
    [|done].
  assert (Hspa : ∀ r, r ∈ SHARED_REASONS →
            r ≠ "shelter SPA missing"
            ∧ ∀ a b, r ≠ "SPA mismatch (ref exclude spa " +:+ a
                         +:+ " vs shelter " +:+ b +:+ ")").
  { intros r Hr. apply list_elem_of_In in Hr. simpl in Hr.
    destruct Hr as [<- | [<- | [<- | [<- | [<- | []]]]]];
      (split; [done | intros a b; simpl; done]). }
  destruct (Hspa reason Hin) as [Hmiss Hmis].
  destruct x as [x|], y as [y|]; try destruct (y =? x);
    try (injection Hd as Hd; symmetry in Hd;
         first [by destruct Hmiss | by apply Hmis in Hd]).
  all: unfold pets_rule, mem in *;
    destruct (_to_bool (get ref_row "ref_has_any_animal"));
    destruct (is_nil (_split_tags (get shelter_row "shelter_pets")));
    destruct (bool_decide
                ("no_pets_allowed" ∈ _split_tags (get shelter_row "shelter_pets")));
    simpl in *; auto;
    destruct (vehicle_rule ref_row shelter_row); simpl in *; auto;
    destruct (gender_source_of ref_row); simpl in *; done.
Qed.

End MoreRules.

(* ===================================================================== *)
(** ** The rows of [build_matches] *)
(* ===================================================================== *)

Section MoreBuilder.
Context `{Builtins}.

Lemma elem_of_matching_pairs referrals shelters beds ref shelter :
  (ref, shelter) ∈ matching_pairs referrals shelters beds ↔
    ref ∈ referrals ∧ shelter ∈ shelters
    ∧ is_exact_match ref shelter beds = Ok true.
Proof.
  unfold matching_pairs. rewrite list_elem_of_In, in_flat_map. split.
  - intros (r & Hr & Hin). apply list_elem_of_In in Hr, Hin.
    apply list_elem_of_fmap in Hin as (s & [= -> ->] & Hs).
    apply list_elem_of_filter in Hs as [Hp Hs].
    repeat split; try done.
    by destruct (is_exact_match r s beds) as [[]|].
  - intros (Hr & Hs & Hm). exists ref. rewrite <- !list_elem_of_In.
    split; [done|]. apply list_elem_of_fmap. exists shelter. split; [done|].
    apply list_elem_of_filter. by rewrite Hm.
Qed.

(** The rows returned are exactly the rows of the pairs that match: one
    per matching pair, none for any other pair. *)
Theorem build_matches_rows referrals_df shelters_df beds df :
  build_matches referrals_df shelters_df beds = Ok df →
  (∀ row, row ∈ records df ↔
     ∃ ref shelter,
       ref ∈ records referrals_df ∧ shelter ∈ records shelters_df
       ∧ is_exact_match ref shelter beds = Ok true
       ∧ row = match_row ref shelter beds)
  ∧ length (records df)
    = length (matching_pairs (records referrals_df) (records shelters_df)
                beds).
Proof.
  intros Hb. unfold build_matches in Hb. cbv zeta in Hb.
  apply bind_Ok in Hb as (rows & Hrows & Hdf).
  apply match_rows_of_spec in Hrows.
  assert (Hperm : records df ≡ₚ rows).
  { destruct rows; simpl in Hdf; injection Hdf as <-; simpl; [done|].
    apply (sort_rows_perm _ (_ :: _)). }
  split.
  - intros row. rewrite Hperm, Hrows, list_elem_of_fmap. split.
    + intros ([ref shelter] & -> & Hin).
      apply elem_of_matching_pairs in Hin as (? & ? & ?). by exists ref, shelter.
    + intros (ref & shelter & Hr & Hs & Hm & ->). exists (ref, shelter).
      split; [done|]. by apply elem_of_matching_pairs.
  - by rewrite Hperm, Hrows, length_map.
Qed.

Lemma match_row_dom ref shelter beds :
  dom (match_row ref shelter beds) = list_to_set MATCH_COLUMNS.
Proof. unfold match_row. cbv zeta. rewrite dom_list_to_map_L. reflexivity. Qed.

(** Every row returned has exactly the 23 fields of [MATCH_COLUMNS], a
    shelter id that is set and a bed count above zero. *)
Theorem build_matches_row_shape referrals_df shelters_df beds df row :
  build_matches referrals_df shelters_df beds = Ok df →
  row ∈ records df →
  dom row = list_to_set MATCH_COLUMNS
  ∧ length MATCH_COLUMNS = 23%nat ∧ NoDup MATCH_COLUMNS
  ∧ truthy (get row "shelter_uid") = true
  ∧ le_zero (get row "beds_available") = Ok false.
Proof.
  intros Hb Hin. apply build_matches_rows in Hb as [Hrows _].
  apply Hrows in Hin as (ref & shelter & _ & _ & Hm & ->).
  split; [apply match_row_dom|]. split; [reflexivity|].
  split; [apply (bool_decide_unpack (NoDup MATCH_COLUMNS)); vm_compute; exact I|].
  apply is_exact_match_true in Hm as (Hbeds & _).
  unfold beds_rule in Hbeds.
  destruct (truthy (get shelter "shelter_uid")) eqn:Hu; simpl in Hbeds;
    [|done].
  assert (Huid : get (match_row ref shelter beds) "shelter_uid"
                 = get shelter "shelter_uid") by (vm_compute; reflexivity).
  assert (Hcount : get (match_row ref shelter beds) "beds_available"
                   = default (VInt 0)
                       (bed_info_of beds (get shelter "shelter_uid")
                          !! "beds_available")) by (vm_compute; reflexivity).
  rewrite Huid, Hcount. split; [done|].
  unfold beds_available_of in Hbeds.
  destruct (default (VInt 0) _) as [| | |[| |]| |]; simpl in *; try done;
    injection Hbeds as Hbeds; apply negb_true_iff in Hbeds;
    by rewrite Hbeds.
Qed.

Lemma match_shelters_returns ref shelters beds :
  returns (match_shelters ref shelters beds) ↔
    ∀ shelter, shelter ∈ shelters →
               returns (is_exact_match ref shelter beds).
Proof.
  induction shelters as [|sh shelters IH]; simpl.
  - split; [intros _ s Hs; by apply elem_of_nil in Hs | done].
  - destruct (is_exact_match ref sh beds) as [ok|e] eqn:Hm; simpl.
    + destruct (match_shelters ref shelters beds) as [rows|e]; simpl in *.
      * split; [|done]. intros _ s [-> | Hs]%elem_of_cons; [by rewrite Hm|].
        by apply IH.
      * split; [done|]. intros Hall. apply IH. intros s Hs.
        apply Hall. by apply list_elem_of_further.
    + split; [done|]. intros Hall.
      specialize (Hall sh (list_elem_of_here _ _)). by rewrite Hm in Hall.
Qed.

Lemma match_rows_of_returns referrals shelters beds :
  returns (match_rows_of referrals shelters beds) ↔
    ∀ ref shelter, ref ∈ referrals → shelter ∈ shelters →
                   returns (is_exact_match ref shelter beds).
Proof.
  induction referrals as [|r refs IH]; simpl.
  - split; [intros _ ? ? Hr; by apply elem_of_nil in Hr | done].
  - pose proof (match_shelters_returns r shelters beds) as Hs.
    destruct (match_shelters r shelters beds) as [rows|e]; simpl in *.
    + destruct (match_rows_of refs shelters beds) as [more|e]; simpl in *.
      * split; [|done]. intros _ ref s [-> | Hr]%elem_of_cons Hin.
        -- by apply Hs.
        -- by apply IH.
      * split; [done|]. intros Hall. apply IH. intros ref s Hr.
        apply Hall. by apply list_elem_of_further.
    + split; [done|]. intros Hall. apply Hs. intros s.
      apply Hall, list_elem_of_here.
Qed.

(** The inner loop stops at the first shelter on which the matcher
    raises. *)
Lemma match_shelters_first_raise ref before shelter after beds e :
  (∀ s, s ∈ before → returns (is_exact_match ref s beds)) →
  is_exact_match ref shelter beds = Raise e →
  match_shelters ref (before ++ shelter :: after) beds = Raise e.
Proof.
  intros Hbefore Hm. induction before as [|s before IH]; simpl.
  - by rewrite Hm.
  - pose proof (Hbefore s (list_elem_of_here _ _)) as Hs.
    destruct (is_exact_match ref s beds) as [ok|e']; [|done]. simpl.
    rewrite IH; [done|]. intros s' Hs'.
    apply Hbefore. by apply list_elem_of_further.
Qed.

(** The outer loop stops at the first referral whose inner loop
    raises. *)
Lemma match_rows_of_first_raise before ref after shelters beds e :
  (∀ r s, r ∈ before → s ∈ shelters →
          returns (is_exact_match r s beds)) →
  match_shelters ref shelters beds = Raise e →
  match_rows_of (before ++ ref :: after) shelters beds = Raise e.
Proof.
  intros Hbefore Hm. induction before as [|r before IH]; simpl.
  - by rewrite Hm.
  - assert (Hr : returns (match_shelters r shelters beds)).
    { apply match_shelters_returns. intros s Hs.
      apply Hbefore; [apply list_elem_of_here | done]. }
    destruct (match_shelters r shelters beds) as [rows|e']; [|done]. simpl.
    rewrite IH; [done|]. intros r' s Hr' Hs.
    apply Hbefore; [by apply list_elem_of_further | done].
Qed.

(** [build_matches] swallows no exception of the matcher.  When it
    returns, [is_exact_match] has returned on every pair of the cross
    product; and the exception of the first pair on which
    [is_exact_match] raises, in the order of the two loops (referrals
    outside, shelters inside), is the exception [build_matches]
    raises. *)
Theorem build_matches_propagates referrals_df shelters_df beds :
  (returns (build_matches referrals_df shelters_df beds) →
   ∀ ref shelter,
     ref ∈ records referrals_df → shelter ∈ records shelters_df →
     returns (is_exact_match ref shelter beds))
  ∧ (∀ refs ref refs' shelters shelter shelters' e,
       records referrals_df = refs ++ ref :: refs' →
       records shelters_df = shelters ++ shelter :: shelters' →
       (∀ r s, r ∈ refs → s ∈ records shelters_df →
               returns (is_exact_match r s beds)) →
       (∀ s, s ∈ shelters → returns (is_exact_match ref s beds)) →
       is_exact_match ref shelter beds = Raise e →
       build_matches referrals_df shelters_df beds = Raise e).
Proof.
  split.
  - intros Hret. apply match_rows_of_returns.
    unfold build_matches in Hret. cbv zeta in Hret.
    by destruct (match_rows_of _ _ _).
  - intros refs ref refs' shelters shelter shelters' e Hrefs Hshelters
      Hbefore Hinner Hm.
    unfold build_matches. cbv zeta. rewrite Hrefs.
    rewrite (match_rows_of_first_raise refs ref refs' (records shelters_df)
               beds e); [done | done |].
    rewrite Hshelters. by apply match_shelters_first_raise.
Qed.

End MoreBuilder.

(* ===================================================================== *)
(** ** The coercions of text *)
(* ===================================================================== *)

Lemma is_space_lower c : is_space (lower_ascii c) = is_space c.
Proof. destruct c as [[] [] [] [] [] [] [] []]; reflexivity. Qed.

Lemma lower_lstrip s : lower (lstrip s) = lstrip (lower s).
Proof.
  induction s as [|c s IH]; simpl; [done|].
  rewrite is_space_lower. by destruct (is_space c).
Qed.

Lemma lower_rstrip s : lower (rstrip s) = rstrip (lower s).
Proof.
  induction s as [|c s IH]; simpl; [done|].
  rewrite <- IH, is_space_lower.
  destruct (rstrip s); simpl; [by destruct (is_space c) | done].
Qed.

Lemma lower_strip s : lower (strip s) = strip (lower s).
Proof. unfold strip. by rewrite lower_rstrip, lower_lstrip. Qed.

Lemma append_nil_l s : "" +:+ s = s.
Proof. reflexivity. Qed.

Lemma append_cons c s t : String c s +:+ t = String c (s +:+ t).
Proof. reflexivity. Qed.

Lemma lstrip_spaces p : str_forall is_space p = true → lstrip p = "".
Proof.
  induction p as [|c p IH]; simpl; [done|].
  intros [-> Hp]%andb_true_iff. auto.
Qed.

Lemma rstrip_spaces p : str_forall is_space p = true → rstrip p = "".
Proof.
  induction p as [|c p IH]; simpl; [done|].
  intros [Hc Hp]%andb_true_iff. by rewrite IH, Hc.
Qed.

Lemma lstrip_app_spaces p s :
  str_forall is_space p = true → lstrip (p +:+ s) = lstrip s.
Proof.
  induction p as [|c p IH]; [done|]. rewrite append_cons. simpl.
  intros [-> Hp]%andb_true_iff. auto.
Qed.

Lemma rstrip_app_spaces s p :
  str_forall is_space p = true → rstrip (s +:+ p) = rstrip s.
Proof.
  intros Hp. induction s as [|c s IH].
  - rewrite append_nil_l. by apply rstrip_spaces.
  - rewrite append_cons. simpl. by rewrite IH.
Qed.

Lemma strip_app_spaces s p :
  str_forall is_space p = true → strip (s +:+ p) = strip s.
Proof.
  intros Hp. unfold strip. induction s as [|c s IH].
  - rewrite append_nil_l. by rewrite (lstrip_spaces p Hp).
  - rewrite append_cons. simpl. destruct (is_space c); [done|].
    rewrite <- append_cons. by apply (rstrip_app_spaces (String c s)).
Qed.

(** The text a coercion looks at: trimmed and lower-cased. *)
Lemma lower_strip_padded s s' p1 p2 :
  lower s = lower s' →
  str_forall is_space p1 = true → str_forall is_space p2 = true →
  lower (strip (p1 +:+ s' +:+ p2)) = lower (strip s).
Proof.
  intros Hcase Hp1 Hp2. unfold strip at 1.
  rewrite (lstrip_app_spaces p1 _ Hp1).
  change (rstrip (lstrip (s' +:+ p2))) with (strip (s' +:+ p2)).
  rewrite (strip_app_spaces s' p2 Hp2).
  by rewrite !lower_strip, Hcase.
Qed.

Section MoreCoercions.
Context `{Builtins}.

(** [_to_bool] and [_split_tags] see neither the case of the letters of
    a text nor the whitespace around it. *)
Theorem text_coercions_ignore_case_and_margins s s' p1 p2 :
  lower s = lower s' →
  str_forall is_space p1 = true → str_forall is_space p2 = true →
  _to_bool (VStr (p1 +:+ s' +:+ p2)) = _to_bool (VStr s)
  ∧ _split_tags (VStr (p1 +:+ s' +:+ p2)) = _split_tags (VStr s).
Proof.
  intros Hcase Hp1 Hp2.
  pose proof (lower_strip_padded s s' p1 p2 Hcase Hp1 Hp2) as Heq.
  unfold _to_bool, _split_tags, py_str. by rewrite Heq.
Qed.

(** [_to_int_or_none] raises exactly on an infinite float and on a text
    that [int] rejects and [float] reads as an infinity; what it raises
    is [OverflowError]. *)
Theorem to_int_or_none_raises_iff val e :
  _to_int_or_none val = Raise e ↔
    e = OverflowError
    ∧ ((∃ neg, val = VFloat (FInf neg))
       ∨ (match val with VStr _ | VDate _ => True | _ => False end
          ∧ strip (py_str val) ≠ ""
          ∧ int_of_str (strip (py_str val)) = None
          ∧ ∃ neg, float_of_str (strip (py_str val)) = Some (FInf neg))).
Proof.
  split.
  - intros Hr. pose proof (_to_int_or_none_raise _ _ Hr) as ->.
    split; [done|]. unfold _to_int_or_none in Hr.
    destruct val as [| | |[|neg|]|s|d]; cbv beta iota zeta in Hr; try done.
    + left. by exists neg.
    + right. split; [done|].
      destruct (String.eqb_spec (strip (py_str (VStr s))) ""); [done|].
      destruct (int_of_str _); [done|].
      destruct (float_of_str _) as [[|neg|]|]; try done.
      repeat split; try done. by exists neg.
    + right. split; [done|].
      destruct (String.eqb_spec (strip (py_str (VDate d))) ""); [done|].
      destruct (int_of_str _); [done|].
      destruct (float_of_str _) as [[|neg|]|]; try done.
      repeat split; try done. by exists neg.
  - intros [-> [[neg ->] | (Hty & Hne & Hint & neg & Hfl)]]; [done|].
    unfold _to_int_or_none.
    destruct val; try done; cbv beta iota zeta;
      match goal with
      | |- context [String.eqb ?a ""] => destruct (String.eqb_spec a "")
      end; try done; by rewrite Hint, Hfl.
Qed.

Lemma match_spa_here_Some s digits :
  match_spa_here s = Some digits →
  String.prefix "spa" (lower s) = true
  ∧ digits ≠ "" ∧ str_forall is_digit digits = true.
Proof.
  unfold match_spa_here. intros Hm.
  destruct s as [|a [|b [|c r]]]; try done.
  destruct (Ascii.eqb_spec (lower_ascii a) "s") as [Ha|]; [|done].
  destruct (Ascii.eqb_spec (lower_ascii b) "p") as [Hb|]; [|done].
  destruct (Ascii.eqb_spec (lower_ascii c) "a") as [Hc|]; [|done].
  simpl in Hm.
  destruct (String.eqb_spec (take_while is_digit
              (drop_while is_space r)) "") as [|Hne]; [done|].
  injection Hm as <-. split; [|split; [done|]].
  - simpl lower. rewrite Ha, Hb, Hc. simpl. by destruct (lower r).
  - generalize (drop_while is_space r). clear.
    intros t. induction t as [|x t IH]; simpl; [done|].
    destruct (is_digit x) eqn:Hx; simpl; [by rewrite Hx|done].
Qed.

Lemma search_spa_unfold s :
  search_spa s
  = match match_spa_here s with
    | Some digits => Some digits
    | None =>
        match s with
        | EmptyString => None
        | String _ r => search_spa r
        end
    end.
Proof. by destruct s. Qed.

Lemma search_spa_Some s digits :
  search_spa s = Some digits →
  contains "spa" (lower s) = true
  ∧ digits ≠ "" ∧ str_forall is_digit digits = true.
Proof.
  induction s as [|c s IH]; rewrite search_spa_unfold.
  - done.
  - destruct (match_spa_here (String c s)) as [ds|] eqn:Hm.
    + intros [= ->]. apply match_spa_here_Some in Hm as (Hp & ? & ?).
      repeat split; try done. by apply prefix_contains.
    + intros (Hc & ? & ?)%IH. repeat split; try done.
      simpl lower. rewrite contains_unfold. cbv beta iota. rewrite Hc.
      apply orb_true_r.
Qed.

(** On ASCII text a SPA code is only ever read behind the letters [spa],
    and only from a run of digits: without those letters in the text,
    in any case, the result is [None]. *)
Theorem extract_spa_needs_marker loc n :
  isascii (py_str loc) = true →
  _extract_spa_from_location loc = Some n →
  contains "spa" (lower (py_str loc)) = true
  ∧ ∃ digits, digits ≠ "" ∧ str_forall is_digit digits = true
              ∧ int_of_str digits = Some n.
Proof.
  intros _. unfold _extract_spa_from_location.
  destruct loc; try done;
    (destruct (search_spa _) as [ds|] eqn:Hs; [|done]);
    intros Hn; apply search_spa_Some in Hs as (Hc & Hne & Hd);
    (split; [done | by exists ds]).
Qed.

Lemma is_digit_not_space c : is_digit c = true → is_space c = false.
Proof. destruct c as [[] [] [] [] [] [] [] []]; simpl; done. Qed.

Lemma take_while_app_digits digits rest :
  str_forall is_digit digits = true →
  match rest with EmptyString => True | String c _ => is_digit c = false end →
  take_while is_digit (digits +:+ rest) = digits.
Proof.
  intros Hd Hrest. induction digits as [|c ds IH].
  - rewrite append_nil_l.
    destruct rest as [|c r]; simpl; [done | by rewrite Hrest].
  - rewrite append_cons. simpl in *.
    apply andb_true_iff in Hd as [-> Hd]. by rewrite IH.
Qed.

Lemma drop_while_app_spaces ws digits rest :
  str_forall is_space ws = true → digits ≠ "" →
  str_forall is_digit digits = true →
  drop_while is_space (ws +:+ digits +:+ rest) = digits +:+ rest.
Proof.
  intros Hws Hne Hd. induction ws as [|c ws IH].
  - rewrite append_nil_l.
    destruct digits as [|d ds]; [done|]. rewrite append_cons. simpl in *.
    apply andb_true_iff in Hd as [Hd _].
    by rewrite (is_digit_not_space d Hd).
  - rewrite append_cons. simpl in *.
    apply andb_true_iff in Hws as [-> Hws]. auto.
Qed.

(** In an ASCII text, the first [spa], in any case, followed by optional
    whitespace and a run of digits, gives the value [int] reads from
    the whole run. *)
Theorem extract_spa_first_marker pre word ws digits rest :
  isascii (pre +:+ word +:+ ws +:+ digits +:+ rest) = true →
  str_forall (λ c, negb (Ascii.eqb (lower_ascii c) "s")) pre = true →
  lower word = "spa" →
  str_forall is_space ws = true →
  digits ≠ "" → str_forall is_digit digits = true →
  match rest with EmptyString => True | String c _ => is_digit c = false end →
  _extract_spa_from_location
    (VStr (pre +:+ word +:+ ws +:+ digits +:+ rest))
  = int_of_str digits.
Proof.
  intros _ Hpre Hword Hws Hne Hd Hrest.
  unfold _extract_spa_from_location, py_str.
  assert (Hs : search_spa (pre +:+ word +:+ ws +:+ digits +:+ rest)
               = Some digits); [|by rewrite Hs].
  induction pre as [|c pre IH].
  - destruct word as [|a [|b [|c [|]]]]; try done.
    injection Hword as Ha Hb Hc. rewrite append_nil_l, !append_cons.
    rewrite append_nil_l.
    assert (Hhere : match_spa_here
              (String a (String b (String c (ws +:+ digits +:+ rest))))
              = Some digits).
    { unfold match_spa_here. rewrite Ha, Hb, Hc. simpl.
      rewrite (drop_while_app_spaces ws digits rest Hws Hne Hd),
        (take_while_app_digits digits rest Hd Hrest).
      by destruct (String.eqb_spec digits ""). }
    by rewrite search_spa_unfold, Hhere.
  - simpl in Hpre. apply andb_true_iff in Hpre as [Hc Hpre].
    apply negb_true_iff in Hc. rewrite append_cons.
    assert (Hhere : match_spa_here
              (String c (pre +:+ word +:+ ws +:+ digits +:+ rest)) = None).
    { unfold match_spa_here.
      destruct (pre +:+ word +:+ ws +:+ digits +:+ rest) as [|b [|d r]];
        try done. by rewrite Hc. }
    rewrite search_spa_unfold, Hhere. by apply IH.
Qed.

End MoreCoercions.

(* ===================================================================== *)
(** ** The normalizers, record by record *)
(* ===================================================================== *)

Lemma mapM_Ok_Forall2 {A B} (f : A → result B) xs ys :
  mapM f xs = Ok ys ↔ Forall2 (λ x y, f x = Ok y) xs ys.
Proof.
  revert ys. induction xs as [|x xs IH]; intros ys; simpl.
  - split; [intros [= <-]; constructor | by inversion 1].
  - split.
    + intros (y & Hy & Hrest)%bind_Ok.
      apply bind_Ok in Hrest as (ys' & Hys & [= <-]).
      constructor; [done | by apply IH].
    + inversion 1 as [|? y ? ys' Hy Hrest]; subst.
      apply IH in Hrest. by rewrite Hy, bind_Ok_l, Hrest.
Qed.

Lemma mapM_Raise {A B} (f : A → result B) xs e :
  mapM f xs = Raise e → ∃ x, x ∈ xs ∧ f x = Raise e.
Proof.
  induction xs as [|x xs IH]; simpl; [done|].
  destruct (f x) as [y|e'] eqn:Hx; simpl.
  - destruct (mapM f xs) as [ys|e'']; simpl; [done|].
    intros [= ->]. destruct IH as (x' & Hin & Hx'); [done|].
    exists x'. split; [by apply list_elem_of_further | done].
  - intros [= ->]. exists x. split; [apply list_elem_of_here | done].
Qed.

Lemma mapM_returns {A B} (f : A → result B) xs :
  returns (mapM f xs) ↔ Forall (λ x, returns (f x)) xs.
Proof.
  induction xs as [|x xs IH]; simpl; [by split; [constructor|]|].
  rewrite Forall_cons, <- IH.
  destruct (f x); simpl; [|tauto].
  destruct (mapM f xs); simpl; tauto.
Qed.

Section MoreNormalizers.
Context `{Builtins}.

Lemma normalize_shelter_row_returns raw :
  returns (normalize_shelter_row raw)
  ↔ returns (_to_int_or_none (get raw "spa")).
Proof.
  unfold normalize_shelter_row.
  by destruct (_to_int_or_none (get raw "spa")).
Qed.

(** [normalize_shelters_df] fails only in the coercion of the SPA
    column: it returns exactly when [_to_int_or_none] returns on every
    cell of that column, and what it raises is the [OverflowError] of a
    cell on which [_to_int_or_none] raises it. *)
Theorem normalize_shelters_df_raises_iff raw_df :
  (returns (normalize_shelters_df raw_df) ↔
     Forall (λ raw, returns (_to_int_or_none (get raw "spa")))
       (records raw_df))
  ∧ (∀ e, normalize_shelters_df raw_df = Raise e →
       e = OverflowError
       ∧ ∃ raw, raw ∈ records raw_df
                ∧ _to_int_or_none (get raw "spa") = Raise OverflowError).
Proof.
  unfold normalize_shelters_df. split.
  - transitivity (returns (mapM normalize_shelter_row (records raw_df))).
    { by destruct (mapM _ _). }
    rewrite mapM_returns. apply Forall_iff. intros raw.
    apply normalize_shelter_row_returns.
  - intros e He.
    destruct (mapM normalize_shelter_row (records raw_df)) as [rows|e']
      eqn:Hm; simpl in He; [done|]. injection He as ->.
    apply mapM_Raise in Hm as (raw & Hin & Hraw).
    unfold normalize_shelter_row in Hraw.
    destruct (_to_int_or_none (get raw "spa")) as [spa|e'] eqn:Hspa;
      simpl in Hraw; [done|]. injection Hraw as ->.
    pose proof (_to_int_or_none_raise _ _ Hspa) as ->.
    split; [done | by exists raw].
Qed.

End MoreNormalizers.

(* ===================================================================== *)
(** ** Bed rows and the latest bed lookup *)
(* ===================================================================== *)

Lemma replace_no_char a b s :
  a ≠ b → no_char a (replace a b s) = true.
Proof.
  intros Hab. unfold no_char. induction s as [|c s IH]; simpl; [done|].
  rewrite IH, andb_true_r.
  destruct (Ascii.eqb_spec c a) as [->|Hc]; apply negb_true_iff.
  - apply Ascii.eqb_neq. congruence.
  - by apply Ascii.eqb_neq.
Qed.

Lemma bed_entry_beds d n :
  bed_entry d n !! "beds_available" = Some (VInt n).
Proof.
  unfold bed_entry. rewrite lookup_insert_ne by done.
  apply lookup_insert_eq.
Qed.

Section MoreBeds.
Context `{Builtins}.

Lemma bed_count_raise (beds : pyval) e :
  match beds with
  | VNone => Ok 0
  | _ => match py_int beds with
         | Raise TypeError | Raise ValueError => Ok 0
         | r => r
         end
  end = Raise e ↔
  e = OverflowError ∧ ∃ neg, beds = VFloat (FInf neg).
Proof.
  destruct beds as [| | |[|neg|]|s|]; simpl; try destruct (int_of_str s);
    (split; [intros [= <-] | intros [-> [neg' [=]]]]); try done.
  split; [done | by exists neg].
Qed.

Lemma parsed_date_raise (date_str : pyval) e :
  (if truthy date_str then
     match date_str with
     | VStr s => Ok (date_fromisoformat s)
     | _ => Raise TypeError
     end
   else Ok None) = Raise e ↔
  e = TypeError ∧ truthy date_str = true ∧ ¬ text_or_none date_str.
Proof.
  destruct (truthy date_str) eqn:Ht.
  - destruct date_str; simpl in *; try done;
      (split; [intros [= <-]; repeat split; tauto
              | intros (-> & _ & Hn); try done; by destruct Hn]).
  - split; [done | by intros (_ & ? & _)].
Qed.

(** [normalize_bed_row] raises in two ways only: [OverflowError] on an
    infinite bed count, and otherwise [TypeError] on a date cell that is
    set and is not text. *)
Theorem normalize_bed_row_raises_iff raw e :
  normalize_bed_row raw = Raise e ↔
    (e = OverflowError ∧ ∃ neg, get raw "BedsAvailable" = VFloat (FInf neg))
    ∨ (e = TypeError
       ∧ (∀ neg, get raw "BedsAvailable" ≠ VFloat (FInf neg))
       ∧ truthy (get raw "Date") = true
       ∧ ¬ text_or_none (get raw "Date")).
Proof.
  unfold normalize_bed_row. cbv zeta.
  pose proof (bed_count_raise (get raw "BedsAvailable")) as Hbeds.
  pose proof (parsed_date_raise (get raw "Date")) as Hdate.
  destruct (match get raw "BedsAvailable" with
            | VNone => Ok 0
            | _ => _
            end) as [n|e1]; simpl.
  - destruct (if truthy (get raw "Date") then _ else _) as [d|e2]; simpl.
    + split; [done|]. intros [[-> Hinf] | (-> & _ & Hd)].
      * by pose proof (proj2 (Hbeds OverflowError) (conj eq_refl Hinf)).
      * by pose proof (proj2 (Hdate TypeError) (conj eq_refl Hd)).
    + split.
      * intros [= <-]. right.
        destruct (proj1 (Hdate e2) eq_refl) as (-> & Ht & Hn).
        repeat split; try done. intros neg Hneg.
        by assert (Ok n = Raise OverflowError)
          by (apply Hbeds; split; [done | by exists neg]).
      * intros [[-> Hinf] | (-> & _ & Hd)].
        -- by pose proof (proj2 (Hbeds OverflowError) (conj eq_refl Hinf)).
        -- pose proof (proj2 (Hdate TypeError) (conj eq_refl Hd)).
           congruence.
  - destruct (proj1 (Hbeds e1) eq_refl) as (-> & neg & Hneg). split.
    + intros [= <-]. left. split; [done | by exists neg].
    + intros [[-> _] | (_ & Hno & _)]; [done | by destruct (Hno neg)].
Qed.

(** A normalized bed row has an id without underscore, keeps an integer
    bed count as it is, and counts zero beds when the cell is empty, a
    NaN, or a text that [int] rejects. *)
Theorem normalize_bed_row_fields raw row :
  normalize_bed_row raw = Ok row →
  (∀ uid, bed_shelter_uid row = Some uid →
     no_char "_" uid = true
     ∧ uid = replace "_" "-" (py_str (get raw "ShelterID")))
  ∧ (∀ n, get raw "BedsAvailable" = VInt n → bed_beds_available row = n)
  ∧ (get raw "BedsAvailable" = VNone
     ∨ get raw "BedsAvailable" = VFloat FNaN
     ∨ (∃ s, get raw "BedsAvailable" = VStr s ∧ int_of_str s = None) →
     bed_beds_available row = 0)
  ∧ bed_date_str row = get raw "Date".
Proof.
  unfold normalize_bed_row. cbv zeta.
  intros (beds & Hbeds & Hrest)%bind_Ok.
  apply bind_Ok in Hrest as (parsed & _ & [= <-]). simpl.
  split; [|split; [|split; [|done]]].
  - intros uid Huid. destruct (get raw "ShelterID"); try done;
      injection Huid as <-; (split; [by apply replace_no_char | done]).
  - intros n Hn. rewrite Hn in Hbeds. simpl in Hbeds. congruence.
  - intros [Hn | [Hn | (s & Hn & Hs)]]; rewrite Hn in Hbeds; simpl in Hbeds.
    + congruence.
    + congruence.
    + rewrite Hs in Hbeds. congruence.
Qed.

(** The lookup [get_latest_beds_by_shelter] returns is well formed: no
    key holds an underscore and every entry is a date with an integer
    count.  So the beds rule never raises on it, and a shelter whose id
    holds an underscore finds no beds and matches nobody. *)
Theorem latest_beds_well_formed raw_rows latest :
  get_latest_beds_by_shelter raw_rows = Ok latest →
  (∀ uid entry, latest !! uid = Some entry →
     no_char "_" uid = true ∧ ∃ d n, entry = bed_entry d n)
  ∧ (∀ shelter_row, returns (beds_rule shelter_row latest))
  ∧ (∀ ref_row shelter_row k,
       get shelter_row "shelter_uid" = VStr k → no_char "_" k = false →
       is_exact_match ref_row shelter_row latest = Ok false).
Proof.
  unfold get_latest_beds_by_shelter. intros (rows & Hrows & Hloop)%bind_Ok.
  destruct (latest_loop_inv rows [] ∅) as (latest' & Hl & Hinv).
  { intros uid. rewrite lookup_empty. intros row d Hin.
    by apply elem_of_nil in Hin. }
  rewrite Hloop in Hl. injection Hl as <-. simpl in Hinv.
  assert (Hwf : ∀ uid entry, latest !! uid = Some entry →
            no_char "_" uid = true ∧ ∃ d n, entry = bed_entry d n).
  { intros uid entry Hentry. specialize (Hinv uid). rewrite Hentry in Hinv.
    destruct Hinv as (row & d & (before & after & Hsplit & [Hu _] & _) & ->).
    split; [|by eexists _, _].
    apply mapM_Ok_Forall2 in Hrows.
    assert (Hin : row ∈ rows).
    { rewrite Hsplit. apply elem_of_app. right. apply list_elem_of_here. }
    apply list_elem_of_lookup in Hin as (i & Hi).
    destruct (Forall2_lookup_r _ _ _ _ _ Hrows Hi) as (raw & _ & Hraw).
    by apply (normalize_bed_row_fields raw row Hraw). }
  split; [done|].
  assert (Hinfo : ∀ uid,
            bed_info_of latest uid = ∅
            ∨ ∃ d n, bed_info_of latest uid = bed_entry d n).
  { intros uid. unfold bed_info_of. destruct uid as [| | | |k|]; auto.
    destruct (latest !! k) as [entry|] eqn:Hk; simpl; [|auto].
    right. by apply (Hwf k). }
  split.
  - intros shelter_row. unfold beds_rule.
    destruct (negb (truthy _)); [done|].
    destruct (Hinfo (get shelter_row "shelter_uid")) as [-> | (d & n & ->)].
    + done.
    + unfold beds_available_of. by rewrite bed_entry_beds.
  - intros ref_row shelter_row k Hk Hunder.
    apply no_beds_no_match. right; left. intros k' Hk'.
    rewrite Hk in Hk'. injection Hk' as <-.
    destruct (latest !! k) as [entry|] eqn:Hentry; [|done].
    apply Hwf in Hentry as [Hno _]. congruence.
Qed.

End MoreBeds.

(* ===================================================================== *)
(** ** Sheets as records *)
(* ===================================================================== *)

Lemma column_map_fold_lookup cols : ∀ (m : gmap Z string) i t,
  foldl (λ m col, <[column_id col := column_title col]> m) m cols !! i
    = Some t →
  m !! i = Some t
  ∨ ∃ col, col ∈ cols ∧ column_id col = i ∧ column_title col = t.
Proof.
  induction cols as [|c cols IH]; intros m i t; simpl; [auto|].
  intros [Hm | (col & Hin & Hid & Ht)]%IH.
  - destruct (decide (column_id c = i)) as [Hi | Hi].
    + rewrite Hi, lookup_insert_eq in Hm. injection Hm as Hm.
      right. exists c. split; [apply list_elem_of_here | done].
    + rewrite lookup_insert_ne in Hm by done. auto.
  - right. exists col. split; [by apply list_elem_of_further | done].
Qed.

Lemma column_map_fold_is_Some cols : ∀ (m : gmap Z string) i,
  is_Some (foldl (λ m col, <[column_id col := column_title col]> m) m cols
             !! i) ↔
  is_Some (m !! i) ∨ ∃ col, col ∈ cols ∧ column_id col = i.
Proof.
  induction cols as [|c cols IH]; intros m i; simpl.
  - split; [auto | intros [? | (col & Hin & _)]; [done|]].
    by apply elem_of_nil in Hin.
  - rewrite IH. split.
    + intros [Hm | (col & Hin & Hid)].
      * destruct (decide (column_id c = i)) as [Hi | Hi].
        -- right. exists c. split; [apply list_elem_of_here | done].
        -- rewrite lookup_insert_ne in Hm by done. auto.
      * right. exists col. split; [by apply list_elem_of_further | done].
    + intros [Hm | (col & Hin & Hid)].
      * left. destruct (decide (column_id c = i)) as [Hi | Hi].
        -- rewrite Hi, lookup_insert_eq. by eexists.
        -- by rewrite lookup_insert_ne.
      * apply elem_of_cons in Hin as [-> | Hin].
        -- left. rewrite Hid, lookup_insert_eq. by eexists.
        -- right. by exists col.
Qed.

Lemma cells_to_record_returns column_map cells : ∀ record,
  returns (cells_to_record column_map record cells) ↔
  ∀ cell, cell ∈ cells → is_Some (column_map !! cell_column_id cell).
Proof.
  induction cells as [|c cells IH]; intros record; simpl.
  - split; [intros _ ? Hin; by apply elem_of_nil in Hin | done].
  - destruct (column_map !! cell_column_id c) as [t|] eqn:Hc.
    + rewrite IH. split.
      * intros Hall cell [-> | Hin]%elem_of_cons; [by rewrite Hc | auto].
      * intros Hall cell Hin. apply Hall. by apply list_elem_of_further.
    + split; [done|]. intros Hall.
      specialize (Hall c (list_elem_of_here _ _)). rewrite Hc in Hall.
      by destruct Hall.
Qed.

Lemma cells_to_record_raise column_map cells : ∀ record e,
  cells_to_record column_map record cells = Raise e → e = KeyError.
Proof.
  induction cells as [|c cells IH]; intros record e; simpl; [done|].
  destruct (column_map !! cell_column_id c); [apply IH | congruence].
Qed.

(** The value a record holds under a title is the value of the last
    cell of the row whose column has that title. *)
Lemma cells_to_record_lookup column_map cells : ∀ record0 record t v,
  cells_to_record column_map record0 cells = Ok record →
  record !! t = Some v ↔
    (∃ before cell after,
       cells = before ++ cell :: after
       ∧ column_map !! cell_column_id cell = Some t
       ∧ cell_value cell = v
       ∧ ∀ c', c' ∈ after → column_map !! cell_column_id c' ≠ Some t)
    ∨ (record0 !! t = Some v
       ∧ ∀ c', c' ∈ cells → column_map !! cell_column_id c' ≠ Some t).
Proof.
  induction cells as [|c cells IH]; intros record0 record t v; simpl.
  - intros [= <-]. split.
    + intros Hr. right. split; [done|]. intros ? Hin.
      by apply elem_of_nil in Hin.
    + intros [(before & cell & after & Hsplit & _) | [Hr _]]; [|done].
      by destruct before.
  - destruct (column_map !! cell_column_id c) as [t0|] eqn:Hc; [|done].
    intros Hrec. rewrite (IH _ _ t v Hrec). split.
    + intros [(before & cell & after & -> & Hcell & Hv & Hafter)
             | [Hr Hnone]].
      * left. exists (c :: before), cell, after. by repeat split.
      * destruct (decide (t0 = t)) as [<- | Hne].
        -- rewrite lookup_insert_eq in Hr. injection Hr as Hr.
           left. exists [], c, cells. by repeat split.
        -- rewrite lookup_insert_ne in Hr by done. right. split; [done|].
           intros c' [-> | Hin]%elem_of_cons; [congruence | auto].
    + intros [(before & cell & after & Hsplit & Hcell & Hv & Hafter)
             | [Hr Hnone]].
      * destruct before as [|b before]; simpl in Hsplit;
          injection Hsplit as -> ->.
        -- right. split; [|done]. rewrite Hc in Hcell.
           injection Hcell as ->. by rewrite lookup_insert_eq, Hv.
        -- left. exists before, cell, after. by repeat split.
      * right. split.
        -- rewrite lookup_insert_ne; [done|]. intros ->.
           by apply (Hnone c (list_elem_of_here _ _)).
        -- intros c' Hin. apply Hnone. by apply list_elem_of_further.
Qed.

(** [sheet_to_records] returns exactly when every cell lies in a column
    of the sheet, and raises [KeyError] otherwise.  It returns one
    record per row, in order. *)
Theorem sheet_to_records_returns sh :
  (returns (sheet_to_records sh) ↔
     ∀ cells cell, cells ∈ sheet_rows sh → cell ∈ cells →
       ∃ col, col ∈ sheet_columns sh ∧ column_id col = cell_column_id cell)
  ∧ (∀ e, sheet_to_records sh = Raise e → e = KeyError)
  ∧ (∀ recs, sheet_to_records sh = Ok recs →
       length recs = length (sheet_rows sh)).
Proof.
  unfold sheet_to_records. cbv zeta. split; [|split].
  - rewrite mapM_returns, Forall_forall.
    split; intros Hall cells.
    + intros cell Hcells Hcell.
      specialize (Hall cells Hcells).
      apply cells_to_record_returns with (cell := cell) in Hall; [|done].
      unfold column_map_of in Hall.
      apply column_map_fold_is_Some in Hall as [Hm | ?]; [|done].
      rewrite lookup_empty in Hm. by destruct Hm.
    + intros Hcells. apply cells_to_record_returns. intros cell Hcell.
      unfold column_map_of. apply column_map_fold_is_Some. right. eauto.
  - intros e (cells & _ & Hr)%mapM_Raise.
    by apply cells_to_record_raise in Hr.
  - intros recs Hr%mapM_Ok_Forall2. symmetry. by eapply Forall2_length.
Qed.

(** In each record, a title maps to the value of the last cell of the
    row that lies in a column with that title; titles without such a
    cell are absent. *)
Theorem sheet_to_records_cells sh recs :
  sheet_to_records sh = Ok recs →
  Forall2
    (λ cells record, ∀ t v,
       record !! t = Some v ↔
         ∃ before cell after,
           cells = before ++ cell :: after
           ∧ column_map_of (sheet_columns sh) !! cell_column_id cell = Some t
           ∧ cell_value cell = v
           ∧ ∀ c', c' ∈ after →
               column_map_of (sheet_columns sh) !! cell_column_id c'
               ≠ Some t)
    (sheet_rows sh) recs.
Proof.
  unfold sheet_to_records. cbv zeta. intros Hr%mapM_Ok_Forall2.
  eapply Forall2_impl; [exact Hr|]. simpl. intros cells record Hrec t v.
  rewrite (cells_to_record_lookup _ _ _ _ t v Hrec).
  rewrite lookup_empty. split; [intros [? | [? _]]; done | auto].
Qed.

(* ===================================================================== *)
(** ** The matching run, end to end *)
(* ===================================================================== *)

Section MoreRun.
Context `{Builtins}.

Lemma list_to_map_lookup_other (l1 l2 : list (string * pyval)) a v v' k :
  k ≠ a →
  (list_to_map (l1 ++ (a, v) :: l2) : gmap string pyval) !! k
  = (list_to_map (l1 ++ (a, v') :: l2) : gmap string pyval) !! k.
Proof.
  intros Hk. induction l1 as [|[b w] l1 IH]; simpl.
  - by rewrite !lookup_insert_ne.
  - destruct (decide (b = k)) as [->|];
      [by rewrite !lookup_insert_eq | by rewrite !lookup_insert_ne].
Qed.

Lemma normalize_shelter_row_age_group raw raw' :
  (∀ k, k ≠ "age_group" → get raw k = get raw' k) →
  match normalize_shelter_row raw, normalize_shelter_row raw' with
  | Ok sh, Ok sh' => same_but_age sh sh'
  | Raise e, Raise e' => e = e'
  | _, _ => False
  end.
Proof.
  intros Hsame. unfold normalize_shelter_row.
  rewrite <- (Hsame "spa") by done.
  destruct (_to_int_or_none (get raw "spa")) as [spa|e]; [|done].
  rewrite !bind_Ok_l. cbv beta iota.
  repeat match goal with
         | |- context [get raw' ?k] =>
             lazymatch k with
             | "age_group" => fail
             | _ => rewrite <- (Hsame k) by done
             end
         end.
  intros k Hk. unfold get at 1 20. f_equal.
  exact (list_to_map_lookup_other
           [ ("shelter_uid", get raw "shelter_id");
             ("shelter_name", get raw "shelter_name");
             ("shelter_spa", int_or_none_val spa);
             ("shelter_cities", get raw "cities") ]
           _ "shelter_age" _ _ k Hk).
Qed.

Lemma match_row_same_but_age ref sh sh' beds :
  same_but_age sh sh' → match_row ref sh beds = match_row ref sh' beds.
Proof.
  intros Hs. unfold match_row. cbv zeta.
  by rewrite !(Hs _) by done.
Qed.

Lemma match_shelters_same_but_age ref shelters shelters' beds :
  Forall2 same_but_age shelters shelters' →
  match_shelters ref shelters beds = match_shelters ref shelters' beds.
Proof.
  induction 1 as [|sh sh' shelters shelters' Hs _ IH]; simpl; [done|].
  rewrite (is_exact_match_reads_only ref ref sh sh' beds), IH,
    (match_row_same_but_age ref sh sh' beds Hs); [done | done |].
  intros k Hk. apply Hs. intros ->. apply list_elem_of_In in Hk.
  simpl in Hk. repeat (destruct Hk as [Hk | Hk]; [discriminate|]). done.
Qed.

Lemma build_matches_same_but_age referrals_df shelters_df shelters_df' beds :
  Forall2 same_but_age (records shelters_df) (records shelters_df') →
  build_matches referrals_df shelters_df beds
  = build_matches referrals_df shelters_df' beds.
Proof.
  intros Hs. unfold build_matches. cbv zeta.
  assert (Hrows : match_rows_of (records referrals_df) (records shelters_df)
                    beds
                  = match_rows_of (records referrals_df)
                      (records shelters_df') beds); [|by rewrite Hrows].
  induction (records referrals_df) as [|ref refs IH]; simpl; [done|].
  by rewrite (match_shelters_same_but_age ref _ _ beds Hs), IH.
Qed.

Lemma mapM_normalize_age_group shelters shelters' :
  Forall2 (λ raw raw', ∀ k, k ≠ "age_group" → get raw k = get raw' k)
    shelters shelters' →
  match mapM normalize_shelter_row shelters,
        mapM normalize_shelter_row shelters' with
  | Ok rows, Ok rows' => Forall2 same_but_age rows rows'
  | Raise e, Raise e' => e = e'
  | _, _ => False
  end.
Proof.
  induction 1 as [|raw raw' shelters shelters' Hraw _ IH]; simpl;
    [constructor|].
  pose proof (normalize_shelter_row_age_group raw raw' Hraw) as Hrow.
  destruct (normalize_shelter_row raw) as [sh|e],
    (normalize_shelter_row raw') as [sh'|e']; simpl; try done.
  destruct (mapM normalize_shelter_row shelters) as [rows|e],
    (mapM normalize_shelter_row shelters') as [rows'|e']; simpl; try done.
  by constructor.
Qed.

(** The age group of a shelter has no effect on a matching run: two
    shelter sheets that differ only in their [age_group] cells give the
    same outcome, the same rows or the same exception. *)
Theorem run_matching_ignores_age_group
    referral_records shelter_records shelter_records' bed_rows :
  Forall2 (λ raw raw', ∀ k, k ≠ "age_group" → get raw k = get raw' k)
    shelter_records shelter_records' →
  run_matching referral_records shelter_records bed_rows
  = run_matching referral_records shelter_records' bed_rows.
Proof.
  intros Hs. unfold run_matching, normalize_shelters_df, raw_frame.
  cbv zeta. simpl records.
  pose proof (mapM_normalize_age_group _ _ Hs) as Hrows.
  destruct (mapM normalize_shelter_row shelter_records) as [rows|e],
    (mapM normalize_shelter_row shelter_records') as [rows'|e'];
    simpl; try done; [|by subst].
  destruct (get_latest_beds_by_shelter bed_rows) as [beds|e]; simpl; [|done].
  by apply build_matches_same_but_age.
Qed.

End MoreRun.

(* ===================================================================== *)
(** ** Worked examples of the further properties *)
(* ===================================================================== *)

(** A shelter that the bed lookup does not know. *)
Lemma no_beds_no_match_witness :
  is_exact_match Examples.ref_blank Examples.shelter_S1 ∅ = Ok false.
Proof.
  apply (no_beds_no_match Examples.ref_blank Examples.shelter_S1 ∅).
  right; left. intros k _. apply lookup_empty.
Defined.

(** A referral with an animal and a shelter tagged [no_pets_allowed]. *)
Lemma pets_rule_rejects_witness :
  pets_rule Examples.ref_blank Examples.shelter_no_pets = true
  ∧ pets_rule Examples.ref_with_animal Examples.shelter_no_pets = false
  ∧ is_exact_match Examples.ref_with_animal Examples.shelter_no_pets
      Examples.beds_S1 ≠ Ok true.
Proof.
  split.
  - apply (proj1 (pets_rule_rejects Examples.ref_blank
                    Examples.shelter_no_pets Examples.beds_S1)).
    vm_compute; reflexivity.
  - apply (proj2 (pets_rule_rejects Examples.ref_with_animal
                    Examples.shelter_no_pets Examples.beds_S1));
      [vm_compute; reflexivity
      | right; apply list_elem_of_In; vm_compute; auto].
Defined.

(** A referral with a vehicle and a shelter that asks for the vehicle
    registration. *)
Lemma vehicle_needs_registration_after_normalization_witness :
  ∃ shelter_row,
    normalize_shelter_row Examples.raw_shelter_vehicle = Ok shelter_row
    ∧ is_exact_match Examples.ref_with_vehicle shelter_row Examples.beds_S1
      = Ok true
    ∧ "vehicle_registration"
      ∈ _split_tags (get Examples.raw_shelter_vehicle "entry_requirements").
Proof.
  eexists. split; [reflexivity|].
  split; [vm_compute; reflexivity|].
  eapply (vehicle_needs_registration_after_normalization
            Examples.ref_with_vehicle Examples.raw_shelter_vehicle _
            Examples.beds_S1);
    [reflexivity | vm_compute; reflexivity | vm_compute; reflexivity].
Defined.


(** The referral's own SPA and preferred SPA change nothing. *)
Lemma is_exact_match_reads_only_witness :
  is_exact_match Examples.ref_with_spa Examples.shelter_S1 Examples.beds_S1
  = is_exact_match Examples.ref_blank Examples.shelter_S1 Examples.beds_S1.
Proof.
  apply (is_exact_match_reads_only Examples.ref_with_spa Examples.ref_blank
           Examples.shelter_S1 Examples.shelter_S1 Examples.beds_S1);
    [|done].
  intros k Hk. apply list_elem_of_In in Hk. simpl in Hk.
  repeat (destruct Hk as [<- | Hk]; [vm_compute; reflexivity|]). done.
Defined.

(** The debug matcher on a shelter without beds. *)
Lemma debug_reason_sound_witness :
  debug_exact_match Examples.ref_blank Examples.shelter_S1 ∅
    = Ok (false, "no beds available")
  ∧ is_exact_match Examples.ref_blank Examples.shelter_S1 ∅ = Ok false.
Proof.
  split; [vm_compute; reflexivity|].
  apply (debug_reason_sound Examples.ref_blank Examples.shelter_S1 ∅
           "no beds available"); [vm_compute; reflexivity|].
  apply list_elem_of_here.
Defined.

(** One referral, one shelter, and a bed count stored as text: the
    [TypeError] of the only pair is the run's. *)
Lemma build_matches_propagates_witness :
  build_matches {| columns := []; records := [Examples.ref_blank] |}
    {| columns := []; records := [Examples.shelter_S1] |}
    Examples.beds_S1_text
  = Raise TypeError.
Proof.
  apply (proj2 (build_matches_propagates
                  {| columns := []; records := [Examples.ref_blank] |}
                  {| columns := []; records := [Examples.shelter_S1] |}
                  Examples.beds_S1_text)
           [] Examples.ref_blank [] [] Examples.shelter_S1 [] TypeError);
    [reflexivity | reflexivity
    | intros r s Hr; by apply elem_of_nil in Hr
    | intros s Hs; by apply elem_of_nil in Hs
    | vm_compute; reflexivity].
Defined.

(** Two referrals, two shelters, three matching pairs. *)
Lemma build_matches_rows_witness :
  ∃ df,
    build_matches Examples.referrals_2_1 Examples.shelters_beta_alpha
      Examples.beds_S1_S2 = Ok df
    ∧ length (records df) = 3%nat.
Proof.
  eexists. split; [reflexivity|].
  etransitivity;
    [eapply (build_matches_rows Examples.referrals_2_1
               Examples.shelters_beta_alpha Examples.beds_S1_S2);
     reflexivity
    | vm_compute; reflexivity].
Defined.

Lemma build_matches_row_shape_witness :
  ∃ df row,
    build_matches Examples.referrals_2_1 Examples.shelters_beta_alpha
      Examples.beds_S1_S2 = Ok df
    ∧ row ∈ records df
    ∧ dom row = list_to_set MATCH_COLUMNS
    ∧ le_zero (get row "beds_available") = Ok false.
Proof.
  eexists. eexists. split; [reflexivity|].
  split; [apply list_elem_of_here|].
  edestruct (build_matches_row_shape Examples.referrals_2_1
               Examples.shelters_beta_alpha Examples.beds_S1_S2)
    as (Hdom & _ & _ & _ & Hle);
    [reflexivity | apply list_elem_of_here |].
  split; [exact Hdom | exact Hle].
Defined.

(** ["  YES "] and ["yes"] coerce alike. *)
Lemma text_coercions_ignore_case_and_margins_witness :
  _to_bool (VStr ("  " +:+ "YES" +:+ " ")) = _to_bool (VStr "yes")
  ∧ _split_tags (VStr ("  " +:+ "YES" +:+ " ")) = _split_tags (VStr "yes").
Proof.
  apply (text_coercions_ignore_case_and_margins "yes" "YES" "  " " ");
    reflexivity.
Defined.

(** The location text of a referral form. *)
Lemma extract_spa_needs_marker_witness :
  isascii (py_str (VStr "SPA 4 - Skid Row Only")) = true
  ∧ _extract_spa_from_location (VStr "SPA 4 - Skid Row Only") = Some 4
  ∧ contains "spa" (lower (py_str (VStr "SPA 4 - Skid Row Only"))) = true.
Proof.
  split; [vm_compute; reflexivity|].
  split; [vm_compute; reflexivity|].
  apply (extract_spa_needs_marker (VStr "SPA 4 - Skid Row Only") 4);
    vm_compute; reflexivity.
Defined.

Lemma extract_spa_first_marker_witness :
  _extract_spa_from_location
    (VStr ("Lot B, " +:+ "Spa" +:+ " " +:+ "12" +:+ " north")) = Some 12.
Proof.
  transitivity (int_of_str "12"); [|vm_compute; reflexivity].
  apply (extract_spa_first_marker "Lot B, " "Spa" " " "12" " north");
    first [reflexivity | discriminate].
Defined.

(** A bed row whose id is written [SHELTER_001]. *)
Lemma normalize_bed_row_fields_witness :
  ∃ row,
    normalize_bed_row Examples.raw_bed_row_underscore = Ok row
    ∧ bed_shelter_uid row = Some "SHELTER-001"
    ∧ no_char "_" "SHELTER-001" = true
    ∧ bed_beds_available row = 10.
Proof.
  eexists. split; [reflexivity|].
  split; [vm_compute; reflexivity|].
  edestruct (normalize_bed_row_fields Examples.raw_bed_row_underscore)
    as (Hid & Hn & _); [reflexivity|].
  split.
  - apply (Hid "SHELTER-001"). vm_compute; reflexivity.
  - apply (Hn 10). vm_compute; reflexivity.
Defined.

(** The lookup built from the three rows of [raw_beds_tie]. *)
Lemma latest_beds_well_formed_witness :
  ∃ latest,
    get_latest_beds_by_shelter Examples.raw_beds_tie = Ok latest
    ∧ ∀ shelter_row, returns (beds_rule shelter_row latest).
Proof.
  eexists. split; [reflexivity|].
  eapply (latest_beds_well_formed Examples.raw_beds_tie).
  reflexivity.
Defined.

(** A sheet with two columns and one row. *)
Lemma sheet_to_records_cells_witness :
  sheet_to_records Examples.sheet_name_age
    = Ok [ {[ "Name" := VStr "Ann"; "Age" := VInt 30 ]} ]
  ∧ Forall2
      (λ cells record, ∀ t v,
         record !! t = Some v ↔
           ∃ before cell after,
             cells = before ++ cell :: after
             ∧ column_map_of (sheet_columns Examples.sheet_name_age)
                 !! cell_column_id cell = Some t
             ∧ cell_value cell = v
             ∧ ∀ c', c' ∈ after →
                 column_map_of (sheet_columns Examples.sheet_name_age)
                   !! cell_column_id c' ≠ Some t)
      (sheet_rows Examples.sheet_name_age)
      [ ({[ "Name" := VStr "Ann"; "Age" := VInt 30 ]} : gmap string pyval) ].
Proof.
  split; [reflexivity|].
  apply (sheet_to_records_cells Examples.sheet_name_age).
  reflexivity.
Defined.

(** A referral of 40 and one shelter, with and without the age group
    [seniors]: the run returns the same single match. *)
Lemma run_matching_ignores_age_group_witness :
  run_matching [Examples.raw_referral_40]
    [Examples.raw_shelter_plain_seniors] Examples.raw_beds_S1
  = run_matching [Examples.raw_referral_40]
      [Examples.raw_shelter_plain] Examples.raw_beds_S1
  ∧ ∃ df,
      run_matching [Examples.raw_referral_40]
        [Examples.raw_shelter_plain_seniors] Examples.raw_beds_S1 = Ok df
      ∧ length (records df) = 1%nat.
Proof.
  split.
  - apply (run_matching_ignores_age_group [Examples.raw_referral_40]
             [Examples.raw_shelter_plain_seniors]
             [Examples.raw_shelter_plain] Examples.raw_beds_S1).
    constructor; [|constructor]. intros k Hk.
    unfold Examples.raw_shelter_plain_seniors, get.
    by rewrite lookup_insert_ne.
  - eexists. split; [reflexivity | vm_compute; reflexivity].
Defined.
